(** * Vote ledger, notification emitter and message pipeline

    A shallow embedding of the Express/Mongoose controllers
    [threadController.voteThread], [commentController.voteComment],
    [commentController.createComment], [commentController.deleteComment],
    [messageController.sendMessage] and [messageController.deleteMessage].

    Conventions of the embedding:
    - a Mongoose collection is a finite map from [_id] to document
      ([gmap Id doc]); the [_id] is the key and is not repeated in the
      document;
    - an [ObjectId] is a natural number; [x.toString() === req.user.id]
      is equality of ids;
    - JavaScript numbers used as counters are integers ([Z]);
    - arrays ([votedBy], [deletedBy], [mentions]) are lists;
    - an [async] handler is a computation over the [World] that either
      continues with a value, has sent its response, or has thrown; the
      world reached at the point of the throw is kept (nothing is rolled
      back), as with a database without transactions. *)

From stdpp Require Import gmap strings list fin_maps pretty.

Set Warnings "-clear-no-such-hyp".
Open Scope Z_scope.

Abbreviation Id := nat.

(** ** Documents (Mongoose schemas) *)

Inductive VoteType := up | down.

#[global] Instance VoteType_eq_dec : EqDecision VoteType.
Proof. solve_decision. Defined.

Record Vote := { user : Id; voteType : VoteType }.

Module User.
Record NotificationPrefs :=
  { newsletter : bool; chat : bool; replies : bool; mentions : bool }.
Record doc :=
  { username : string; name : string; notificationPrefs : NotificationPrefs }.
End User.

Module Thread.
Record doc := {
  title : string;
  createdBy : Id;
  upvotes : Z;
  downvotes : Z;
  votedBy : list Vote;
  commentsCount : Z;
  isLocked : bool }.

Definition set_votedBy (v : list Vote) (t : doc) : doc :=
  {| title := title t; createdBy := createdBy t; upvotes := upvotes t;
     downvotes := downvotes t; votedBy := v;
     commentsCount := commentsCount t; isLocked := isLocked t |}.
Definition set_upvotes (n : Z) (t : doc) : doc :=
  {| title := title t; createdBy := createdBy t; upvotes := n;
     downvotes := downvotes t; votedBy := votedBy t;
     commentsCount := commentsCount t; isLocked := isLocked t |}.
Definition set_downvotes (n : Z) (t : doc) : doc :=
  {| title := title t; createdBy := createdBy t; upvotes := upvotes t;
     downvotes := n; votedBy := votedBy t;
     commentsCount := commentsCount t; isLocked := isLocked t |}.
Definition set_commentsCount (n : Z) (t : doc) : doc :=
  {| title := title t; createdBy := createdBy t; upvotes := upvotes t;
     downvotes := downvotes t; votedBy := votedBy t;
     commentsCount := n; isLocked := isLocked t |}.
End Thread.

Module Comment.
Record doc := {
  threadId : Id;
  userId : Id;
  body : string;
  parentId : option Id;
  upvotes : Z;
  downvotes : Z;
  votedBy : list Vote;
  mentions : list Id }.

Definition set_votedBy (v : list Vote) (c : doc) : doc :=
  {| threadId := threadId c; userId := userId c; body := body c;
     parentId := parentId c; upvotes := upvotes c;
     downvotes := downvotes c; votedBy := v; mentions := mentions c |}.
Definition set_upvotes (n : Z) (c : doc) : doc :=
  {| threadId := threadId c; userId := userId c; body := body c;
     parentId := parentId c; upvotes := n;
     downvotes := downvotes c; votedBy := votedBy c; mentions := mentions c |}.
Definition set_downvotes (n : Z) (c : doc) : doc :=
  {| threadId := threadId c; userId := userId c; body := body c;
     parentId := parentId c; upvotes := upvotes c;
     downvotes := n; votedBy := votedBy c; mentions := mentions c |}.
End Comment.

Inductive MessageType := text | file | image.

Module Message.
Record doc := {
  sender : Id;
  receiver : Id;
  content : string;
  threadId : option Id;
  messageType : MessageType;
  read : bool;
  isDeleted : bool;
  deletedBy : list Id }.

Definition set_deletedBy (l : list Id) (m : doc) : doc :=
  {| sender := sender m; receiver := receiver m; content := content m;
     threadId := threadId m; messageType := messageType m; read := read m;
     isDeleted := isDeleted m; deletedBy := l |}.
Definition set_isDeleted (b : bool) (m : doc) : doc :=
  {| sender := sender m; receiver := receiver m; content := content m;
     threadId := threadId m; messageType := messageType m; read := read m;
     isDeleted := b; deletedBy := deletedBy m |}.
End Message.

Inductive NotificationType :=
  | thread_reply | comment_reply | thread_upvote | comment_upvote
  | thread_bookmark | new_message | thread_mention | comment_mention
  | system | newsletter.

#[global] Instance NotificationType_eq_dec : EqDecision NotificationType.
Proof. solve_decision. Defined.

Module Notification.
Record data := {
  threadId : option Id;
  commentId : option Id;
  messageId : option Id;
  fromUserId : option Id;
  actionUrl : string }.
(** The fields a caller of [Notification.create] supplies; [read] and
    [emailSent] take their schema default [false]. *)
Record doc := {
  userId : Id;
  type : NotificationType;
  title : string;
  message : string;
  data_ : data;
  read : bool;
  emailSent : bool }.
End Notification.

(** ** Requests and responses *)

(** [req.user], as attached by the authentication middleware. *)
Record ReqUser := { id : Id; name : string; username : string }.

(** What a [populate('sender').populate('receiver')] read returns. *)
Record PopulatedMessage := {
  pm_id : Id;
  pm_doc : Message.doc;
  pm_sender : option User.doc;
  pm_receiver : option User.doc }.

(** What a [populate('userId').populate('mentions')] read returns. *)
Record PopulatedComment := {
  pc_id : Id;
  pc_doc : Comment.doc;
  pc_user : option User.doc;
  pc_mentions : list User.doc }.

Inductive Payload :=
  | PMessage (message : string)
  | PErrors (errors : list string)
  | PVotes (upvotes downvotes : Z)
  | PMessageData (data : option PopulatedMessage)
  | PCommentData (data : option PopulatedComment).

Record Response := { status : nat; success : bool; payload : Payload }.

Inductive Error :=
  | WriteError (collection : string)
  | TypeError (what : string).

(** A push through Socket.IO: [io.to(room).emit(event, payload)]. *)
Record Emit := {
  room : string;
  event : string;
  e_message : option PopulatedMessage;
  e_sender : ReqUser }.

(** ** The world the handlers run in *)

Record World := {
  users : gmap Id User.doc;
  threads : gmap Id Thread.doc;
  comments : gmap Id Comment.doc;
  messages : gmap Id Message.doc;
  notifications : list Notification.doc;
  (** the next [ObjectId] the driver hands out *)
  nextId : Id;
  (** whether writes to the notifications collection are rejected *)
  notificationsDown : bool;
  emitted : list Emit }.

Definition set_threads (f : gmap Id Thread.doc → gmap Id Thread.doc) (w : World) : World :=
  {| users := users w; threads := f (threads w); comments := comments w;
     messages := messages w; notifications := notifications w;
     nextId := nextId w; notificationsDown := notificationsDown w;
     emitted := emitted w |}.
Definition set_comments (f : gmap Id Comment.doc → gmap Id Comment.doc) (w : World) : World :=
  {| users := users w; threads := threads w; comments := f (comments w);
     messages := messages w; notifications := notifications w;
     nextId := nextId w; notificationsDown := notificationsDown w;
     emitted := emitted w |}.
Definition set_messages (f : gmap Id Message.doc → gmap Id Message.doc) (w : World) : World :=
  {| users := users w; threads := threads w; comments := comments w;
     messages := f (messages w); notifications := notifications w;
     nextId := nextId w; notificationsDown := notificationsDown w;
     emitted := emitted w |}.
Definition set_notifications (f : list Notification.doc → list Notification.doc) (w : World) : World :=
  {| users := users w; threads := threads w; comments := comments w;
     messages := messages w; notifications := f (notifications w);
     nextId := nextId w; notificationsDown := notificationsDown w;
     emitted := emitted w |}.
Definition set_nextId (n : Id) (w : World) : World :=
  {| users := users w; threads := threads w; comments := comments w;
     messages := messages w; notifications := notifications w;
     nextId := n; notificationsDown := notificationsDown w;
     emitted := emitted w |}.
Definition set_emitted (f : list Emit → list Emit) (w : World) : World :=
  {| users := users w; threads := threads w; comments := comments w;
     messages := messages w; notifications := notifications w;
     nextId := nextId w; notificationsDown := notificationsDown w;
     emitted := f (emitted w) |}.

(** ** The handler monad *)

Inductive Step (A : Type) :=
  | Val (a : A)            (* the handler goes on with [a] *)
  | Ret (r : Response)     (* the handler has responded and is over *)
  | Thr (e : Error).       (* an awaited promise rejected *)
Arguments Val {A} a.
Arguments Ret {A} r.
Arguments Thr {A} e.

Definition M (A : Type) : Type := World → Step A * World.

Definition pure {A} (a : A) : M A := λ w, (Val a, w).

Definition bind {A B} (m : M A) (k : A → M B) : M B :=
  λ w, match m w with
       | (Val a, w') => k a w'
       | (Ret r, w') => (Ret r, w')
       | (Thr e, w') => (Thr e, w')
       end.

Notation "'await' x '<-' m ';' k" := (bind m (λ x, k))
  (at level 10, x name, m at level 100, k at level 200,
   format "'[v' 'await'  x  '<-'  m ';' '/' k ']'").
Notation "'do' m ';' k" := (bind m (λ _, k))
  (at level 10, m at level 100, k at level 200,
   format "'[v' 'do'  m ';' '/' k ']'").

(** [res.status(s).json({ success, ... })] *)
Definition respond {A} (s : nat) (ok : bool) (p : Payload) : M A :=
  λ w, (Ret {| status := s; success := ok; payload := p |}, w).

Definition throw {A} (e : Error) : M A := λ w, (Thr e, w).

(** [for (const x of l) { await f(x) }] *)
Fixpoint forEach {A} (l : list A) (f : A → M unit) : M unit :=
  match l with
  | [] => pure tt
  | x :: l' => do f x; forEach l' f
  end.

(** What the caller of a handler observes. *)
Inductive Outcome :=
  | Responded (r : Response)
  | Rejected (e : Error)
  | Pending.

Definition run (h : M unit) (w : World) : Outcome * World :=
  match h w with
  | (Ret r, w') => (Responded r, w')
  | (Thr e, w') => (Rejected e, w')
  | (Val _, w') => (Pending, w')
  end.

(** ** Model operations (Mongoose) *)

Definition User_findById (i : Id) : M (option User.doc) :=
  λ w, (Val (users w !! i), w).

Definition Thread_findById (i : Id) : M (option Thread.doc) :=
  λ w, (Val (threads w !! i), w).

(** [thread.save()] of a document obtained by [findById i] *)
Definition Thread_save (i : Id) (t : Thread.doc) : M unit :=
  λ w, (Val tt, set_threads (insert i t) w).

(** [Thread.findByIdAndUpdate(i, { $inc: { commentsCount: n } })] *)
Definition Thread_incCommentsCount (i : Id) (n : Z) : M unit :=
  λ w, (Val tt,
        set_threads
          (alter (λ t, Thread.set_commentsCount (Thread.commentsCount t + n) t) i) w).

Definition Comment_findById (i : Id) : M (option Comment.doc) :=
  λ w, (Val (comments w !! i), w).

Definition Comment_save (i : Id) (c : Comment.doc) : M unit :=
  λ w, (Val tt, set_comments (insert i c) w).

(** [Comment.create(c)]: the document is stored under a fresh [_id] *)
Definition Comment_create (c : Comment.doc) : M Id :=
  λ w, (Val (nextId w),
        set_nextId (S (nextId w)) (set_comments (insert (nextId w) c) w)).

(** [Comment.deleteMany({ parentId: p })] *)
Definition Comment_deleteMany_parentId (p : Id) : M unit :=
  λ w, (Val tt,
        set_comments
          (filter (λ kc : Id * Comment.doc, Comment.parentId kc.2 ≠ Some p)) w).

(** [Comment.countDocuments({ parentId: p })] *)
Definition Comment_countDocuments_parentId (p : Id) : M Z :=
  λ w, (Val (Z.of_nat
               (size (filter (λ kc : Id * Comment.doc,
                                Comment.parentId kc.2 = Some p) (comments w)))),
        w).

(** [comment.deleteOne()] *)
Definition Comment_deleteOne (i : Id) : M unit :=
  λ w, (Val tt, set_comments (delete i) w).

Definition Message_findById (i : Id) : M (option Message.doc) :=
  λ w, (Val (messages w !! i), w).

Definition Message_save (i : Id) (m : Message.doc) : M unit :=
  λ w, (Val tt, set_messages (insert i m) w).

Definition Message_create (m : Message.doc) : M Id :=
  λ w, (Val (nextId w),
        set_nextId (S (nextId w)) (set_messages (insert (nextId w) m) w)).

(** [Message.findById(i).populate('sender', ..).populate('receiver', ..)] *)
Definition Message_findById_populated (i : Id) : M (option PopulatedMessage) :=
  λ w, (Val (m ← messages w !! i;
             Some {| pm_id := i; pm_doc := m;
                     pm_sender := users w !! Message.sender m;
                     pm_receiver := users w !! Message.receiver m |}),
        w).

Definition Comment_findById_populated (i : Id) : M (option PopulatedComment) :=
  λ w, (Val (c ← comments w !! i;
             Some {| pc_id := i; pc_doc := c;
                     pc_user := users w !! Comment.userId c;
                     pc_mentions :=
                       omap (λ m, users w !! m) (Comment.mentions c) |}),
        w).

(** [Notification.create(n)]: rejects when the collection cannot be
    written, appends the record otherwise. *)
Definition Notification_create (n : Notification.doc) : M unit :=
  λ w, if notificationsDown w
       then (Thr (WriteError "notifications"), w)
       else (Val tt, set_notifications (λ l, l ++ [n]) w).

(** [io.to(room).emit(event, payload)]: recorded, never fails. *)
Definition io_emit (e : Emit) : M unit :=
  λ w, (Val tt, set_emitted (λ l, l ++ [e]) w).

(** The double-quote character of the message templates. *)
Definition dquote : string :=
  String (Ascii.Ascii false true false false false true false false) EmptyString.

Definition mkNotification (u : Id) (ty : NotificationType) (ti msg : string)
    (d : Notification.data) : Notification.doc :=
  {| Notification.userId := u; Notification.type := ty;
     Notification.title := ti; Notification.message := msg;
     Notification.data_ := d;
     Notification.read := false; Notification.emailSent := false |}.

(** ** Vote handlers *)

Record VoteReq := {
  vr_id : Id;               (* req.params.id *)
  vr_voteType : string;     (* req.body.voteType *)
  vr_user : ReqUser }.

(** [['up', 'down'].includes(voteType)] *)
Definition parseVoteType (s : string) : option VoteType :=
  if decide (s = "up") then Some up
  else if decide (s = "down") then Some down
  else None.

Definition thread_upvote_notification (i : Id) (thread : Thread.doc) (u : ReqUser)
    : Notification.doc :=
  mkNotification (Thread.createdBy thread) thread_upvote
    "Your thread received an upvote"
    ("Someone upvoted your thread " +:+ dquote +:+ Thread.title thread +:+ dquote)
    {| Notification.threadId := Some i; Notification.commentId := None;
       Notification.messageId := None; Notification.fromUserId := Some (id u);
       Notification.actionUrl := "/threads/" +:+ pretty i |}.

Definition voteThread (req : VoteReq) : M unit :=
  await thread <- Thread_findById (vr_id req);
  match thread with
  | None => respond 404 false (PMessage "Thread not found")
  | Some thread =>
    match parseVoteType (vr_voteType req) with
    | None => respond 400 false (PMessage "Invalid vote type")
    | Some voteType_ =>
      let existingVote :=
        list_find (λ vote, user vote = id (vr_user req)) (Thread.votedBy thread) in
      await thread <-
        match existingVote with
        | Some (i, existingVote) =>
          if decide (voteType existingVote = voteType_) then
            (* Remove vote *)
            let thread :=
              Thread.set_votedBy
                (filter (λ vote, user vote ≠ id (vr_user req)) (Thread.votedBy thread))
                thread in
            pure (match voteType_ with
                  | up => Thread.set_upvotes (Thread.upvotes thread - 1) thread
                  | down => Thread.set_downvotes (Thread.downvotes thread - 1) thread
                  end)
          else
            (* Change vote *)
            let thread :=
              Thread.set_votedBy
                (<[i := {| user := user existingVote; voteType := voteType_ |}]>
                   (Thread.votedBy thread))
                thread in
            pure (match voteType_ with
                  | up =>
                    Thread.set_downvotes (Thread.downvotes thread - 1)
                      (Thread.set_upvotes (Thread.upvotes thread + 1) thread)
                  | down =>
                    Thread.set_downvotes (Thread.downvotes thread + 1)
                      (Thread.set_upvotes (Thread.upvotes thread - 1) thread)
                  end)
        | None =>
          (* New vote *)
          let thread :=
            Thread.set_votedBy
              (Thread.votedBy thread ++
                 [{| user := id (vr_user req); voteType := voteType_ |}])
              thread in
          let thread :=
            match voteType_ with
            | up => Thread.set_upvotes (Thread.upvotes thread + 1) thread
            | down => Thread.set_downvotes (Thread.downvotes thread + 1) thread
            end in
          do (if decide (voteType_ = up ∧ Thread.createdBy thread ≠ id (vr_user req))
              then Notification_create
                     (thread_upvote_notification (vr_id req) thread (vr_user req))
              else pure tt);
          pure thread
        end;
      do Thread_save (vr_id req) thread;
      respond 200 true (PVotes (Thread.upvotes thread) (Thread.downvotes thread))
    end
  end.

Definition comment_upvote_notification (i : Id) (comment : Comment.doc) (u : ReqUser)
    : Notification.doc :=
  mkNotification (Comment.userId comment) comment_upvote
    "Your comment received an upvote"
    "Someone upvoted your comment"
    {| Notification.threadId := Some (Comment.threadId comment);
       Notification.commentId := Some i;
       Notification.messageId := None; Notification.fromUserId := Some (id u);
       Notification.actionUrl :=
         "/threads/" +:+ pretty (Comment.threadId comment) +:+ "#comment-" +:+ pretty i |}.

Definition voteComment (req : VoteReq) : M unit :=
  await comment <- Comment_findById (vr_id req);
  match comment with
  | None => respond 404 false (PMessage "Comment not found")
  | Some comment =>
    match parseVoteType (vr_voteType req) with
    | None => respond 400 false (PMessage "Invalid vote type")
    | Some voteType_ =>
      let existingVote :=
        list_find (λ vote, user vote = id (vr_user req)) (Comment.votedBy comment) in
      await comment <-
        match existingVote with
        | Some (i, existingVote) =>
          if decide (voteType existingVote = voteType_) then
            (* Remove vote *)
            let comment :=
              Comment.set_votedBy
                (filter (λ vote, user vote ≠ id (vr_user req)) (Comment.votedBy comment))
                comment in
            pure (match voteType_ with
                  | up => Comment.set_upvotes (Comment.upvotes comment - 1) comment
                  | down => Comment.set_downvotes (Comment.downvotes comment - 1) comment
                  end)
          else
            (* Change vote *)
            let comment :=
              Comment.set_votedBy
                (<[i := {| user := user existingVote; voteType := voteType_ |}]>
                   (Comment.votedBy comment))
                comment in
            pure (match voteType_ with
                  | up =>
                    Comment.set_downvotes (Comment.downvotes comment - 1)
                      (Comment.set_upvotes (Comment.upvotes comment + 1) comment)
                  | down =>
                    Comment.set_downvotes (Comment.downvotes comment + 1)
                      (Comment.set_upvotes (Comment.upvotes comment - 1) comment)
                  end)
        | None =>
          (* New vote *)
          let comment :=
            Comment.set_votedBy
              (Comment.votedBy comment ++
                 [{| user := id (vr_user req); voteType := voteType_ |}])
              comment in
          let comment :=
            match voteType_ with
            | up => Comment.set_upvotes (Comment.upvotes comment + 1) comment
            | down => Comment.set_downvotes (Comment.downvotes comment + 1) comment
            end in
          do (if decide (voteType_ = up ∧ Comment.userId comment ≠ id (vr_user req))
              then Notification_create
                     (comment_upvote_notification (vr_id req) comment (vr_user req))
              else pure tt);
          pure comment
        end;
      do Comment_save (vr_id req) comment;
      respond 200 true (PVotes (Comment.upvotes comment) (Comment.downvotes comment))
    end
  end.


(** ** Comment handlers *)

Record CommentReq := {
  cr_errors : list string;          (* validationResult(req).array() *)
  cr_threadId : Id;                 (* req.body.threadId *)
  cr_body : string;                 (* req.body.body *)
  cr_parentId : option Id;          (* req.body.parentId *)
  cr_mentions : option (list Id);   (* req.body.mentions *)
  cr_user : ReqUser }.

Definition comment_data (tid cid : Id) (u : ReqUser) : Notification.data :=
  {| Notification.threadId := Some tid; Notification.commentId := Some cid;
     Notification.messageId := None; Notification.fromUserId := Some (id u);
     Notification.actionUrl :=
       "/threads/" +:+ pretty tid +:+ "#comment-" +:+ pretty cid |}.

Definition thread_reply_notification (tid cid : Id) (thread : Thread.doc)
    (u : ReqUser) : Notification.doc :=
  mkNotification (Thread.createdBy thread) thread_reply
    "New comment on your thread"
    (name u +:+ " commented on your thread " +:+ dquote +:+ Thread.title thread
       +:+ dquote)
    (comment_data tid cid u).

Definition comment_reply_notification (tid cid : Id) (parentComment : Comment.doc)
    (u : ReqUser) : Notification.doc :=
  mkNotification (Comment.userId parentComment) comment_reply
    "Reply to your comment"
    (name u +:+ " replied to your comment")
    (comment_data tid cid u).

Definition comment_mention_notification (tid cid : Id) (thread : Thread.doc)
    (u : ReqUser) (mentionedUserId : Id) : Notification.doc :=
  mkNotification mentionedUserId comment_mention
    "You were mentioned in a comment"
    (name u +:+ " mentioned you in a comment on " +:+ dquote +:+ Thread.title thread
       +:+ dquote)
    (comment_data tid cid u).

Definition createComment (req : CommentReq) : M unit :=
  match cr_errors req with
  | _ :: _ => respond 400 false (PErrors (cr_errors req))
  | [] =>
    (* Check if thread exists *)
    await thread <- Thread_findById (cr_threadId req);
    match thread with
    | None => respond 404 false (PMessage "Thread not found")
    | Some thread =>
      (* Check if thread is locked *)
      if Thread.isLocked thread
      then respond 403 false (PMessage "Thread is locked")
      else
        (* If parentId provided, check if parent comment exists *)
        do (match cr_parentId req with
            | Some parentId =>
              await parentComment <- Comment_findById parentId;
              match parentComment with
              | None => respond 404 false (PMessage "Parent comment not found")
              | Some _ => pure tt
              end
            | None => pure tt
            end);
        await comment <-
          Comment_create
            {| Comment.threadId := cr_threadId req;
               Comment.userId := id (cr_user req);
               Comment.body := cr_body req;
               Comment.parentId := cr_parentId req;
               Comment.upvotes := 0; Comment.downvotes := 0;
               Comment.votedBy := [];
               Comment.mentions := default [] (cr_mentions req) |};
        (* Update thread comment count *)
        do Thread_incCommentsCount (cr_threadId req) 1;
        (* Create notifications *)
        do (match cr_parentId req with
            | None =>
              (* Notify thread owner *)
              if decide (Thread.createdBy thread ≠ id (cr_user req))
              then Notification_create
                     (thread_reply_notification (cr_threadId req) comment thread
                        (cr_user req))
              else pure tt
            | Some parentId =>
              (* Notify parent comment owner *)
              await parentComment <- Comment_findById parentId;
              match parentComment with
              | None => throw (TypeError "parentComment is null")
              | Some parentComment =>
                if decide (Comment.userId parentComment ≠ id (cr_user req))
                then Notification_create
                       (comment_reply_notification (cr_threadId req) comment
                          parentComment (cr_user req))
                else pure tt
              end
            end);
        (* Notify mentioned users *)
        do (match cr_mentions req with
            | Some mentions =>
              if decide (0 < length mentions)%nat then
                forEach mentions (λ mentionedUserId,
                  if decide (mentionedUserId ≠ id (cr_user req)) then
                    await mentionedUser <- User_findById mentionedUserId;
                    match mentionedUser with
                    | Some _ =>
                      Notification_create
                        (comment_mention_notification (cr_threadId req) comment
                           thread (cr_user req) mentionedUserId)
                    | None => pure tt
                    end
                  else pure tt)
              else pure tt
            | None => pure tt
            end);
        (* Populate and return the created comment *)
        await populatedComment <- Comment_findById_populated comment;
        respond 201 true (PCommentData populatedComment)
    end
  end.

Record IdReq := {
  ir_id : Id;          (* req.params.id *)
  ir_user : ReqUser }.

Definition deleteComment (req : IdReq) : M unit :=
  await comment <- Comment_findById (ir_id req);
  match comment with
  | None => respond 404 false (PMessage "Comment not found")
  | Some comment =>
    (* Check ownership *)
    if decide (Comment.userId comment ≠ id (ir_user req))
    then respond 403 false (PMessage "Not authorized to delete this comment")
    else
      (* Delete all replies *)
      do Comment_deleteMany_parentId (ir_id req);
      (* Update thread comment count *)
      await replyCount <- Comment_countDocuments_parentId (ir_id req);
      do Thread_incCommentsCount (Comment.threadId comment) (- (replyCount + 1));
      do Comment_deleteOne (ir_id req);
      respond 200 true (PMessage "Comment deleted successfully")
  end.

(** ** Message handlers *)

Record MessageReq := {
  mr_errors : list string;                  (* validationResult(req).array() *)
  mr_receiverId : Id;                       (* req.body.receiverId *)
  mr_content : string;                      (* req.body.content *)
  mr_threadId : option Id;                  (* req.body.threadId *)
  mr_messageType : option MessageType;      (* req.body.messageType *)
  mr_user : ReqUser }.

Definition new_message_notification (receiverId message : Id) (u : ReqUser)
    : Notification.doc :=
  mkNotification receiverId new_message
    "New message"
    (name u +:+ " sent you a message")
    {| Notification.threadId := None; Notification.commentId := None;
       Notification.messageId := Some message;
       Notification.fromUserId := Some (id u);
       Notification.actionUrl := "/chat?user=" +:+ username u |}.

Definition sendMessage (req : MessageReq) : M unit :=
  match mr_errors req with
  | _ :: _ => respond 400 false (PErrors (mr_errors req))
  | [] =>
    (* Check if receiver exists *)
    await receiver <- User_findById (mr_receiverId req);
    match receiver with
    | None => respond 404 false (PMessage "Receiver not found")
    | Some receiver =>
      (* Check if receiver allows messages *)
      if negb (User.chat (User.notificationPrefs receiver))
      then respond 403 false (PMessage "User has disabled messages")
      else
        await message <-
          Message_create
            {| Message.sender := id (mr_user req);
               Message.receiver := mr_receiverId req;
               Message.content := mr_content req;
               Message.threadId := mr_threadId req;
               Message.messageType := default text (mr_messageType req);
               Message.read := false;
               Message.isDeleted := false;
               Message.deletedBy := [] |};
        (* Create notification *)
        do Notification_create
             (new_message_notification (mr_receiverId req) message (mr_user req));
        (* Populate and return the created message *)
        await populatedMessage <- Message_findById_populated message;
        (* Emit real-time message via Socket.IO *)
        do io_emit {| room := "user-" +:+ pretty (mr_receiverId req);
                      event := "new-message";
                      e_message := populatedMessage;
                      e_sender := mr_user req |};
        respond 201 true (PMessageData populatedMessage)
    end
  end.

Definition deleteMessage (req : IdReq) : M unit :=
  await message <- Message_findById (ir_id req);
  match message with
  | None => respond 404 false (PMessage "Message not found")
  | Some message =>
    (* Check if user is sender or receiver *)
    if decide (Message.sender message ≠ id (ir_user req)
               ∧ Message.receiver message ≠ id (ir_user req))
    then respond 403 false (PMessage "Not authorized to delete this message")
    else
      (* Add user to deletedBy array instead of actually deleting *)
      let message :=
        if decide (id (ir_user req) ∈ Message.deletedBy message)
        then message
        else Message.set_deletedBy
               (Message.deletedBy message ++ [id (ir_user req)]) message in
      (* If both users deleted, mark as deleted *)
      let message :=
        if decide (length (Message.deletedBy message) = 2%nat)
        then Message.set_isDeleted true message
        else message in
      do Message_save (ir_id req) message;
      respond 200 true (PMessage "Message deleted successfully")
  end.
(** ** The vote ledger

    Both vote handlers run the same transition on the three fields
    [upvotes], [downvotes] and [votedBy] of their document.  [castVote]
    is that transition; [voteThread_castVote] and [voteComment_castVote]
    below show that each handler performs exactly it. *)

Record Ledger := { l_up : Z; l_down : Z; l_votes : list Vote }.

Definition castVote (u : Id) (vt : VoteType) (L : Ledger) : Ledger * bool :=
  match list_find (λ vote, user vote = u) (l_votes L) with
  | Some (i, existingVote) =>
    if decide (voteType existingVote = vt) then
      ({| l_up := match vt with up => l_up L - 1 | down => l_up L end;
          l_down := match vt with up => l_down L | down => l_down L - 1 end;
          l_votes := filter (λ vote, user vote ≠ u) (l_votes L) |}, false)
    else
      ({| l_up := match vt with up => l_up L + 1 | down => l_up L - 1 end;
          l_down := match vt with up => l_down L - 1 | down => l_down L + 1 end;
          l_votes := <[i := {| user := user existingVote; voteType := vt |}]> (l_votes L) |},
       false)
  | None =>
    ({| l_up := match vt with up => l_up L + 1 | down => l_up L end;
        l_down := match vt with up => l_down L | down => l_down L + 1 end;
        l_votes := l_votes L ++ [{| user := u; voteType := vt |}] |}, true)
  end.

Definition Thread_ledger (t : Thread.doc) : Ledger :=
  {| l_up := Thread.upvotes t; l_down := Thread.downvotes t;
     l_votes := Thread.votedBy t |}.

Definition Thread_with_ledger (L : Ledger) (t : Thread.doc) : Thread.doc :=
  Thread.set_downvotes (l_down L)
    (Thread.set_upvotes (l_up L) (Thread.set_votedBy (l_votes L) t)).

Definition Comment_ledger (c : Comment.doc) : Ledger :=
  {| l_up := Comment.upvotes c; l_down := Comment.downvotes c;
     l_votes := Comment.votedBy c |}.

Definition Comment_with_ledger (L : Ledger) (c : Comment.doc) : Comment.doc :=
  Comment.set_downvotes (l_down L)
    (Comment.set_upvotes (l_up L) (Comment.set_votedBy (l_votes L) c)).

(** Number of vote records of one direction. *)
Definition countVotes (vt : VoteType) (l : list Vote) : Z :=
  Z.of_nat (length (filter (λ v, voteType v = vt) l)).

(** The invariant of the data model: the counters are the numbers of
    [up] and [down] records, and no user has two records. *)
Record ledger_ok (L : Ledger) : Prop := {
  ok_up : l_up L = countVotes up (l_votes L);
  ok_down : l_down L = countVotes down (l_votes L);
  ok_unique : NoDup (user <$> l_votes L) }.

Definition Thread_inv (t : Thread.doc) : Prop := ledger_ok (Thread_ledger t).
Definition Comment_inv (c : Comment.doc) : Prop := ledger_ok (Comment_ledger c).

(** [u] has no vote record in [l]. *)
Definition noVoteBy (u : Id) (l : list Vote) : Prop := u ∉ user <$> l.

#[global] Instance noVoteBy_dec u l : Decision (noVoteBy u l).
Proof. unfold noVoteBy. apply _. Defined.

Definition hasType (vt : VoteType) (v : Vote) : Z :=
  if decide (voteType v = vt) then 1 else 0.

Definition votesResponse (L : Ledger) : Response :=
  {| status := 200; success := true; payload := PVotes (l_up L) (l_down L) |}.

(** What [voteThread] does on an existing thread [t] with a valid
    direction [vt]: the first [up] vote of somebody else than the owner
    first writes the notification, and the thread is saved only after. *)
Definition voteThread_result (req : VoteReq) (t : Thread.doc) (vt : VoteType)
    (w : World) : Step unit * World :=
  let u := id (vr_user req) in
  let L := (castVote u vt (Thread_ledger t)).1 in
  let t' := Thread_with_ledger L t in
  if decide ((castVote u vt (Thread_ledger t)).2 = true
             ∧ vt = up ∧ Thread.createdBy t ≠ u)
  then
    if notificationsDown w then (Thr (WriteError "notifications"), w)
    else (Ret (votesResponse L),
          set_threads (insert (vr_id req) t')
            (set_notifications
               (λ l, l ++ [thread_upvote_notification (vr_id req) t (vr_user req)]) w))
  else (Ret (votesResponse L), set_threads (insert (vr_id req) t') w).

Definition voteComment_result (req : VoteReq) (c : Comment.doc) (vt : VoteType)
    (w : World) : Step unit * World :=
  let u := id (vr_user req) in
  let L := (castVote u vt (Comment_ledger c)).1 in
  let c' := Comment_with_ledger L c in
  if decide ((castVote u vt (Comment_ledger c)).2 = true
             ∧ vt = up ∧ Comment.userId c ≠ u)
  then
    if notificationsDown w then (Thr (WriteError "notifications"), w)
    else (Ret (votesResponse L),
          set_comments (insert (vr_id req) c')
            (set_notifications
               (λ l, l ++ [comment_upvote_notification (vr_id req) c (vr_user req)]) w))
  else (Ret (votesResponse L), set_comments (insert (vr_id req) c') w).


(** The two requests of one user on one entity. *)
Definition voteUp (i : Id) (u : ReqUser) : VoteReq :=
  {| vr_id := i; vr_voteType := "up"; vr_user := u |}.
Definition voteDown (i : Id) (u : ReqUser) : VoteReq :=
  {| vr_id := i; vr_voteType := "down"; vr_user := u |}.

(** ** Message pipeline: outcome of the steps *)





Definition deleteReq (i : Id) (u : ReqUser) : IdReq :=
  {| ir_id := i; ir_user := u |}.

(** What one authorised [deleteMessage] call of user [u] does to the
    message document. *)
Definition markDeleted (u : Id) (m : Message.doc) : Message.doc :=
  let m := if decide (u ∈ Message.deletedBy m) then m
           else Message.set_deletedBy (Message.deletedBy m ++ [u]) m in
  if decide (length (Message.deletedBy m) = 2%nat)
  then Message.set_isDeleted true m else m.

(** Successive [deleteMessage] calls on message [i], one per caller. *)
Definition deleteCalls (i : Id) (callers : list ReqUser) (w : World) : World :=
  foldl (λ w u, (run (deleteMessage (deleteReq i u)) w).2) w callers.

(** ** Comment creation: outcome of the steps *)







Definition isReply (n : Notification.doc) : Prop :=
  Notification.type n = thread_reply ∨ Notification.type n = comment_reply.

Definition isMention (n : Notification.doc) : Prop :=
  Notification.type n = thread_mention ∨ Notification.type n = comment_mention.

#[global] Instance isReply_dec n : Decision (isReply n).
Proof. unfold isReply. apply _. Defined.

#[global] Instance isMention_dec n : Decision (isMention n).
Proof. unfold isMention. apply _. Defined.


(** ** Comment deletion *)

(** The replies of comment [i]: the other comments whose parent it is. *)
Definition repliesOf (i : Id) (m : gmap Id Comment.doc) : gmap Id Comment.doc :=
  filter (λ kc : Id * Comment.doc, kc.1 ≠ i ∧ Comment.parentId kc.2 = Some i) m.

(** The world after a complete run of [deleteComment] on [comment]. *)
Definition commentDeleted (req : IdReq) (comment : Comment.doc) (w : World) : World :=
  set_comments (delete (ir_id req))
    (set_threads
       (alter (λ t, Thread.set_commentsCount (Thread.commentsCount t + - (0 + 1)) t)
          (Comment.threadId comment))
       (set_comments
          (filter (λ kc : Id * Comment.doc, Comment.parentId kc.2 ≠ Some (ir_id req)))
          w)).

(** ** A small forum on which the handlers are run *)

Definition mkUser (username_ name_ : string) (chat_ : bool) : User.doc :=
  {| User.username := username_; User.name := name_;
     User.notificationPrefs :=
       {| User.newsletter := true; User.chat := chat_;
          User.replies := true; User.mentions := true |} |}.

Definition alice : ReqUser := {| id := 1%nat; name := "Alice"; username := "alice" |}.
Definition bob : ReqUser := {| id := 2%nat; name := "Bob"; username := "bob" |}.
Definition carol : ReqUser := {| id := 3%nat; name := "Carol"; username := "carol" |}.

(** Bob's thread, with Carol's comment and Alice's reply to it. *)
Definition logoThread : Thread.doc :=
  {| Thread.title := "Logo design"; Thread.createdBy := 2%nat;
     Thread.upvotes := 0; Thread.downvotes := 0; Thread.votedBy := [];
     Thread.commentsCount := 2; Thread.isLocked := false |}.

Definition carolComment : Comment.doc :=
  {| Comment.threadId := 10%nat; Comment.userId := 3%nat;
     Comment.body := "I can do it"; Comment.parentId := None;
     Comment.upvotes := 0; Comment.downvotes := 0; Comment.votedBy := [];
     Comment.mentions := [] |}.

Definition aliceReply : Comment.doc :=
  {| Comment.threadId := 10%nat; Comment.userId := 1%nat;
     Comment.body := "Show us"; Comment.parentId := Some 20%nat;
     Comment.upvotes := 0; Comment.downvotes := 0; Comment.votedBy := [];
     Comment.mentions := [] |}.

Definition aliceToBob : Message.doc :=
  {| Message.sender := 1%nat; Message.receiver := 2%nat;
     Message.content := "Hello"; Message.threadId := None;
     Message.messageType := text; Message.read := false;
     Message.isDeleted := false; Message.deletedBy := [] |}.

(** Dave (user 4) has switched chat off. *)
Definition forum : World :=
  {| users := {[ 1%nat := mkUser "alice" "Alice" true;
                 2%nat := mkUser "bob" "Bob" true;
                 3%nat := mkUser "carol" "Carol" true;
                 4%nat := mkUser "dave" "Dave" false ]};
     threads := {[ 10%nat := logoThread ]};
     comments := {[ 20%nat := carolComment; 21%nat := aliceReply ]};
     messages := {[ 30%nat := aliceToBob ]};
     notifications := [];
     nextId := 100%nat;
     notificationsDown := false;
     emitted := [] |}.


Definition sendTo (receiverId : Id) (u : ReqUser) : MessageReq :=
  {| mr_errors := []; mr_receiverId := receiverId; mr_content := "Hi";
     mr_threadId := None; mr_messageType := None; mr_user := u |}.

(** Alice comments on Bob's thread, [parentId] and [mentions] as given. *)
Definition aliceComments (parentId : option Id) (mentions : option (list Id))
    : CommentReq :=
  {| cr_errors := []; cr_threadId := 10%nat; cr_body := "Nice";
     cr_parentId := parentId; cr_mentions := mentions; cr_user := alice |}.

(** * The other handlers of the controllers

    [markAsRead] runs in the [World] above.  The handlers after it read
    fields of the documents that no handler above touches: the category
    and the bookmarks of a thread, the wishlist of a user, and the
    categories collection.  These are kept beside the [World], in maps
    from the [_id] of the document to the value of the field; a document
    without an entry has the schema default of the field (the empty
    array).  An entry whose document is no longer in its collection is
    never read.  Timestamps ([readAt], [createdAt], ...) are not
    modelled. *)

Definition Message_set_read (b : bool) (m : Message.doc) : Message.doc :=
  {| Message.sender := Message.sender m; Message.receiver := Message.receiver m;
     Message.content := Message.content m; Message.threadId := Message.threadId m;
     Message.messageType := Message.messageType m; Message.read := b;
     Message.isDeleted := Message.isDeleted m;
     Message.deletedBy := Message.deletedBy m |}.

(** [Message.findOne({ _id: i, receiver: r })] *)
Definition Message_findOne_receiver (i r : Id) : M (option Message.doc) :=
  λ w, (Val match messages w !! i with
            | Some m => if decide (Message.receiver m = r) then Some m else None
            | None => None
            end, w).

Definition markAsRead (req : IdReq) : M unit :=
  await message <- Message_findOne_receiver (ir_id req) (id (ir_user req));
  match message with
  | None => respond 404 false (PMessage "Message not found")
  | Some message =>
    let message := Message_set_read true message in
    do Message_save (ir_id req) message;
    respond 200 true (PMessage "Message marked as read")
  end.

Module Category.
Record doc := { name : string; threadsCount : Z; isActive : bool }.

Definition set_threadsCount (n : Z) (c : doc) : doc :=
  {| name := name c; threadsCount := n; isActive := isActive c |}.
End Category.

Record Site := {
  core : World;
  categories : gmap Id Category.doc;
  category : gmap Id Id;            (* thread.category, by thread *)
  bookmarks : gmap Id (list Id);    (* thread.bookmarks, by thread *)
  wishlist : gmap Id (list Id) }.   (* user.wishlist, by user *)

Definition set_core (f : World → World) (s : Site) : Site :=
  {| core := f (core s); categories := categories s; category := category s;
     bookmarks := bookmarks s; wishlist := wishlist s |}.
Definition set_categories (f : gmap Id Category.doc → gmap Id Category.doc)
    (s : Site) : Site :=
  {| core := core s; categories := f (categories s); category := category s;
     bookmarks := bookmarks s; wishlist := wishlist s |}.
Definition set_bookmarks (f : gmap Id (list Id) → gmap Id (list Id)) (s : Site) : Site :=
  {| core := core s; categories := categories s; category := category s;
     bookmarks := f (bookmarks s); wishlist := wishlist s |}.
Definition set_wishlist (f : gmap Id (list Id) → gmap Id (list Id)) (s : Site) : Site :=
  {| core := core s; categories := categories s; category := category s;
     bookmarks := bookmarks s; wishlist := f (wishlist s) |}.

(** Response bodies of these handlers. *)
Inductive Body :=
  | BCore (p : Payload)
  | BCount (count : Z)
  | BBookmark (message : string) (isBookmarked : bool)
  | BFollow (message : string) (isFollowing : bool)
  | BUsers (count : Z) (data : list (Id * User.doc)).

Record Reply := { code : nat; ok : bool; body : Body }.

Inductive StepS (A : Type) :=
  | ValS (a : A)
  | RetS (r : Reply)
  | ThrS (e : Error).
Arguments ValS {A} a.
Arguments RetS {A} r.
Arguments ThrS {A} e.

Definition MS (A : Type) : Type := Site → StepS A * Site.

Definition pureS {A} (a : A) : MS A := λ s, (ValS a, s).

Definition bindS {A B} (m : MS A) (k : A → MS B) : MS B :=
  λ s, match m s with
       | (ValS a, s') => k a s'
       | (RetS r, s') => (RetS r, s')
       | (ThrS e, s') => (ThrS e, s')
       end.

Declare Scope site_scope.
Delimit Scope site_scope with site.
Notation "'await' x '<-' m ';' k" := (bindS m (λ x, k))
  (at level 10, x name, m at level 100, k at level 200, only parsing) : site_scope.
Notation "'do' m ';' k" := (bindS m (λ _, k))
  (at level 10, m at level 100, k at level 200, only parsing) : site_scope.

Definition respondS {A} (c : nat) (b : bool) (p : Body) : MS A :=
  λ s, (RetS {| code := c; ok := b; body := p |}, s).

Definition throwS {A} (e : Error) : MS A := λ s, (ThrS e, s).

(** A model operation of the [World], run on the site. *)
Definition liftW {A} (m : M A) : MS A :=
  λ s, match m (core s) with
       | (Val a, w) => (ValS a, set_core (λ _, w) s)
       | (Ret r, w) =>
         (RetS {| code := status r; ok := success r; body := BCore (payload r) |},
          set_core (λ _, w) s)
       | (Thr e, w) => (ThrS e, set_core (λ _, w) s)
       end.

Inductive OutcomeS :=
  | RespondedS (r : Reply)
  | RejectedS (e : Error)
  | PendingS.

Definition runS (h : MS unit) (s : Site) : OutcomeS * Site :=
  match h s with
  | (RetS r, s') => (RespondedS r, s')
  | (ThrS e, s') => (RejectedS e, s')
  | (ValS _, s') => (PendingS, s')
  end.

(** [Message.countDocuments({ receiver: r, read: false, isDeleted: false })] *)
Definition Message_countDocuments_unread (r : Id) : MS Z :=
  λ s, (ValS (Z.of_nat
                (size (filter (λ km : Id * Message.doc,
                                 Message.receiver km.2 = r
                                 ∧ Message.read km.2 = false
                                 ∧ Message.isDeleted km.2 = false)
                         (messages (core s))))), s).

Definition getUnreadCount (u : ReqUser) : MS unit :=
  (await count <- Message_countDocuments_unread (id u);
   respondS 200 true (BCount count))%site.

(** [thread.bookmarks] of a thread that was found *)
Definition Thread_bookmarks (i : Id) : MS (list Id) :=
  λ s, (ValS (default [] (bookmarks s !! i)), s).

(** [thread.save()] after [thread.bookmarks] was assigned [l] *)
Definition Thread_save_bookmarks (i : Id) (t : Thread.doc) (l : list Id) : MS unit :=
  λ s, (ValS tt, set_bookmarks (insert i l) (set_core (set_threads (insert i t)) s)).

Definition bookmarkThread (req : IdReq) : MS unit :=
  (await thread <- liftW (Thread_findById (ir_id req));
   match thread with
   | None => respondS 404 false (BCore (PMessage "Thread not found"))
   | Some thread =>
     await thread_bookmarks <- Thread_bookmarks (ir_id req);
     let isBookmarked := bool_decide (id (ir_user req) ∈ thread_bookmarks) in
     if isBookmarked then
       (* Remove bookmark *)
       do Thread_save_bookmarks (ir_id req) thread
            (filter (λ x, x ≠ id (ir_user req)) thread_bookmarks);
       respondS 200 true (BBookmark "Thread unbookmarked" false)
     else
       (* Add bookmark *)
       do Thread_save_bookmarks (ir_id req) thread
            (thread_bookmarks ++ [id (ir_user req)]);
       respondS 200 true (BBookmark "Thread bookmarked" true)
   end)%site.

(** [thread.category] of a thread that was found *)
Definition Thread_category (i : Id) : MS (option Id) :=
  λ s, (ValS (category s !! i), s).

(** [Comment.deleteMany({ threadId: t })] *)
Definition Comment_deleteMany_threadId (t : Id) : MS unit :=
  λ s, (ValS tt,
        set_core
          (set_comments
             (filter (λ kc : Id * Comment.doc, Comment.threadId kc.2 ≠ t))) s).

(** [Category.findByIdAndUpdate(c, { $inc: { threadsCount: n } })] *)
Definition Category_incThreadsCount (c : option Id) (n : Z) : MS unit :=
  λ s, (ValS tt,
        match c with
        | Some c =>
          set_categories
            (alter (λ d, Category.set_threadsCount (Category.threadsCount d + n) d) c)
            s
        | None => s
        end).

(** [thread.deleteOne()] *)
Definition Thread_deleteOne (i : Id) : MS unit :=
  λ s, (ValS tt, set_core (set_threads (delete i)) s).

Definition deleteThread (req : IdReq) : MS unit :=
  (await thread <- liftW (Thread_findById (ir_id req));
   match thread with
   | None => respondS 404 false (BCore (PMessage "Thread not found"))
   | Some thread =>
     (* Check ownership *)
     if decide (Thread.createdBy thread ≠ id (ir_user req))
     then respondS 403 false (BCore (PMessage "Not authorized to delete this thread"))
     else
       (* Delete all comments *)
       do Comment_deleteMany_threadId (ir_id req);
       (* Update category thread count *)
       await thread_category <- Thread_category (ir_id req);
       do Category_incThreadsCount thread_category (-1);
       do Thread_deleteOne (ir_id req);
       respondS 200 true (BCore (PMessage "Thread deleted successfully"))
   end)%site.

Definition Category_findById (i : Id) : MS (option Category.doc) :=
  λ s, (ValS (categories s !! i), s).

(** The threads whose [category] is [c]. *)
Definition threadsIn (c : Id) (s : Site) : gmap Id Thread.doc :=
  filter (λ kt : Id * Thread.doc, category s !! kt.1 = Some c) (threads (core s)).

(** [Thread.countDocuments({ category: c })] *)
Definition Thread_countDocuments_category (c : Id) : MS Z :=
  λ s, (ValS (Z.of_nat (size (threadsIn c s))), s).

(** [category.deleteOne()] *)
Definition Category_deleteOne (i : Id) : MS unit :=
  λ s, (ValS tt, set_categories (delete i) s).

Definition deleteCategory (req : IdReq) : MS unit :=
  (await category_ <- Category_findById (ir_id req);
   match category_ with
   | None => respondS 404 false (BCore (PMessage "Category not found"))
   | Some _ =>
     (* Check if category has threads *)
     await threadCount <- Thread_countDocuments_category (ir_id req);
     if decide (0 < threadCount)
     then respondS 400 false
            (BCore (PMessage "Cannot delete category with existing threads"))
     else
       do Category_deleteOne (ir_id req);
       respondS 200 true (BCore (PMessage "Category deleted successfully"))
   end)%site.

(** [user.wishlist] of a user that was found *)
Definition User_wishlist (i : Id) : MS (list Id) :=
  λ s, (ValS (default [] (wishlist s !! i)), s).

(** [User.findByIdAndUpdate(i, { $pull: { wishlist: x } })] *)
Definition User_pull_wishlist (i x : Id) : MS unit :=
  λ s, (ValS tt,
        match users (core s) !! i with
        | Some _ =>
          set_wishlist
            (insert i (filter (λ y, y ≠ x) (default [] (wishlist s !! i)))) s
        | None => s
        end).

(** [User.findByIdAndUpdate(i, { $addToSet: { wishlist: x } })] *)
Definition User_addToSet_wishlist (i x : Id) : MS unit :=
  λ s, (ValS tt,
        match users (core s) !! i with
        | Some _ =>
          let l := default [] (wishlist s !! i) in
          set_wishlist (insert i (if decide (x ∈ l) then l else l ++ [x])) s
        | None => s
        end).

Definition followUser (req : IdReq) : MS unit :=
  (await userToFollow <- liftW (User_findById (ir_id req));
   await currentUser <- liftW (User_findById (id (ir_user req)));
   match userToFollow with
   | None => respondS 404 false (BCore (PMessage "User not found"))
   | Some _ =>
     if decide (ir_id req = id (ir_user req))
     then respondS 400 false (BCore (PMessage "You cannot follow yourself"))
     else
       match currentUser with
       | None => throwS (TypeError "currentUser is null")
       | Some _ =>
         await currentUser_wishlist <- User_wishlist (id (ir_user req));
         let isFollowing := bool_decide (ir_id req ∈ currentUser_wishlist) in
         if isFollowing then
           (* Unfollow *)
           do User_pull_wishlist (id (ir_user req)) (ir_id req);
           respondS 200 true (BFollow "User unfollowed successfully" false)
         else
           (* Follow *)
           do User_addToSet_wishlist (id (ir_user req)) (ir_id req);
           respondS 200 true (BFollow "User followed successfully" true)
       end
   end)%site.

(** The users whose wishlist holds [i]. *)
Definition followersOf (i : Id) (s : Site) : gmap Id User.doc :=
  filter (λ ku : Id * User.doc, i ∈ default [] (wishlist s !! ku.1))
    (users (core s)).

(** [User.find({ wishlist: i })]; the selection of fields is not
    modelled, the documents are returned whole. *)
Definition User_find_wishlist (i : Id) : MS (list (Id * User.doc)) :=
  λ s, (ValS (map_to_list (followersOf i s)), s).

Definition getUserFollowers (i : Id) : MS unit :=
  (await user_ <- liftW (User_findById i);
   match user_ with
   | None => respondS 404 false (BCore (PMessage "User not found"))
   | Some _ =>
     await followers <- User_find_wishlist i;
     respondS 200 true (BUsers (Z.of_nat (length followers)) followers)
   end)%site.

(** ** Reading the handlers' answers *)

Definition countReply (n : Z) : Reply :=
  {| code := 200; ok := true; body := BCount n |}.

Definition textReply (c : nat) (b : bool) (msg : string) : Reply :=
  {| code := c; ok := b; body := BCore (PMessage msg) |}.

(** The number [getUnreadCount] reports for user [r]. *)
Definition unreadCount (r : Id) (w : World) : Z :=
  Z.of_nat (size (filter (λ km : Id * Message.doc,
                            Message.receiver km.2 = r
                            ∧ Message.read km.2 = false
                            ∧ Message.isDeleted km.2 = false) (messages w))).

(** A site around the small forum: one category holding Bob's thread,
    which Carol has bookmarked; Alice follows Bob. *)
Definition site : Site :=
  {| core := forum;
     categories := {[ 50%nat := {| Category.name := "Design";
                                   Category.threadsCount := 1;
                                   Category.isActive := true |};
                      51%nat := {| Category.name := "Writing";
                                   Category.threadsCount := 0;
                                   Category.isActive := true |} ]};
     category := {[ 10%nat := 50%nat ]};
     bookmarks := {[ 10%nat := [3%nat] ]};
     wishlist := {[ 1%nat := [2%nat] ]} |}.

(** * [utils/helpers.js]: [extractMentions]

    The text is a string of characters; [\w] is a letter, a digit or the
    underscore. *)

Definition atSign : Ascii.ascii := Ascii.ascii_of_nat 64.

Definition isWordChar (c : Ascii.ascii) : bool :=
  let n := Ascii.nat_of_ascii c in
  ((48 <=? n) && (n <=? 57) || (65 <=? n) && (n <=? 90)
   || (97 <=? n) && (n <=? 122) || (n =? 95))%nat.

(** The longest run of word characters at the start of [s], and what
    follows it: what [\w+] takes. *)
Fixpoint spanWord (s : string) : string * string :=
  match s with
  | String c s' =>
    if isWordChar c
    then let (w, rest) := spanWord s' in (String c w, rest)
    else (EmptyString, s)
  | EmptyString => (EmptyString, EmptyString)
  end.

(** [mentionRegex.exec(text)] with [lastIndex] at the start of [s]: the
    group of the leftmost match of [/@(\w+)/] in [s] and the text after
    the match, or [None] when nothing matches. *)
Fixpoint exec (s : string) : option (string * string) :=
  match s with
  | String c s' =>
    if Ascii.eqb c atSign then
      match spanWord s' with
      | (EmptyString, _) => exec s'
      | (w, rest) => Some (w, rest)
      end
    else exec s'
  | EmptyString => None
  end.

(** [while ((match = mentionRegex.exec(text)) !== null) mentions.push(match[1])],
    at most [fuel] turns. *)
Fixpoint mentionsLoop (fuel : nat) (s : string) : list string :=
  match fuel with
  | O => []
  | S fuel' =>
    match exec s with
    | Some (w, rest) => w :: mentionsLoop fuel' rest
    | None => []
    end
  end.

(** [[...new Set(mentions)]]: the elements in the order they first occur *)
Definition fromSet (mentions : list string) : list string :=
  foldl (λ seen x, if decide (x ∈ seen) then seen else seen ++ [x]) [] mentions.

Definition extractMentions (text : string) : list string :=
  fromSet (mentionsLoop (String.length text) text).


(** ** Deleting threads and categories *)

Definition afterDeleteThread (i : Id) (s : Site) : Site :=
  set_core (set_threads (delete i))
    (match category s !! i with
     | Some c =>
       set_categories
         (alter (λ d, Category.set_threadsCount (Category.threadsCount d + -1) d) c)
     | None => λ s, s
     end
       (set_core
          (set_comments
             (filter (λ kc : Id * Comment.doc, Comment.threadId kc.2 ≠ i))) s)).

(** The cached [threadsCount] of every category is the number of
    threads in it. *)
Definition counts_ok (s : Site) : Prop :=
  ∀ c d, categories s !! c = Some d →
         Category.threadsCount d = Z.of_nat (size (threadsIn c s)).

(** * Proofs
    ** Stepping through a handler *)

Section steps.
Context {A B : Type} (k : A → M B) (w : World).


Lemma bind_respond s ok p : bind (respond s ok p) k w = respond s ok p w.
Proof. reflexivity. Qed.

Lemma bind_throw e : bind (throw e) k w = throw e w.
Proof. reflexivity. Qed.

Lemma bind_bind {C} (m : M C) (f : C → M A) :
  bind (bind m f) k w = bind m (λ c, bind (f c) k) w.
Proof. unfold bind. by destruct (m w) as [[c|r|e] w']. Qed.
End steps.

Section model_steps.
Context {B : Type} (w : World).


Lemma bind_Thread_findById i (k : option Thread.doc → M B) :
  bind (Thread_findById i) k w = k (threads w !! i) w.
Proof. reflexivity. Qed.

Lemma bind_Comment_findById i (k : option Comment.doc → M B) :
  bind (Comment_findById i) k w = k (comments w !! i) w.
Proof. reflexivity. Qed.


Lemma bind_Thread_incCommentsCount i n (k : unit → M B) :
  bind (Thread_incCommentsCount i n) k w
  = k tt (set_threads
            (alter (λ t, Thread.set_commentsCount (Thread.commentsCount t + n) t) i) w).
Proof. reflexivity. Qed.

Lemma bind_Comment_deleteMany_parentId p (k : unit → M B) :
  bind (Comment_deleteMany_parentId p) k w
  = k tt (set_comments
            (filter (λ kc : Id * Comment.doc, Comment.parentId kc.2 ≠ Some p)) w).
Proof. reflexivity. Qed.

Lemma bind_Comment_countDocuments_parentId p (k : Z → M B) :
  bind (Comment_countDocuments_parentId p) k w
  = k (Z.of_nat (size (filter (λ kc : Id * Comment.doc,
                                 Comment.parentId kc.2 = Some p) (comments w)))) w.
Proof. reflexivity. Qed.

Lemma bind_Comment_deleteOne i (k : unit → M B) :
  bind (Comment_deleteOne i) k w = k tt (set_comments (delete i) w).
Proof. reflexivity. Qed.


End model_steps.

Lemma run_respond s ok p w :
  run (respond s ok p) w
  = (Responded {| status := s; success := ok; payload := p |}, w).
Proof. reflexivity. Qed.
(** ** Counting vote records *)

Section ledger_lemmas.
Implicit Types (l : list Vote) (v : Vote) (u : Id) (vt : VoteType).


Lemma countVotes_nil vt : countVotes vt [] = 0.
Proof. reflexivity. Qed.

Lemma countVotes_cons vt v l :
  countVotes vt (v :: l) = hasType vt v + countVotes vt l.
Proof.
  unfold countVotes, hasType. rewrite filter_cons.
  destruct (decide (voteType v = vt)); simpl length; lia.
Qed.

Lemma countVotes_app vt l1 l2 :
  countVotes vt (l1 ++ l2) = countVotes vt l1 + countVotes vt l2.
Proof.
  unfold countVotes. rewrite filter_app, length_app. lia.
Qed.

Lemma countVotes_insert vt l i v v' :
  l !! i = Some v →
  countVotes vt (<[i := v']> l) = countVotes vt l - hasType vt v + hasType vt v'.
Proof.
  revert i. induction l as [|x l IH]; intros [|i] Hi; simplify_eq/=.
  - rewrite !countVotes_cons. lia.
  - rewrite !countVotes_cons, (IH i) by done. lia.
Qed.

Lemma filter_others_id u l :
  noVoteBy u l → filter (λ vote, user vote ≠ u) l = l.
Proof.
  unfold noVoteBy. induction l as [|x l IH]; intros Hu; [done|].
  rewrite fmap_cons, not_elem_of_cons in Hu. destruct Hu as [Hx Hl].
  rewrite filter_cons_True by congruence. by rewrite IH.
Qed.

Lemma countVotes_retract vt l i v :
  NoDup (user <$> l) → l !! i = Some v →
  countVotes vt (filter (λ vote, user vote ≠ user v) l)
  = countVotes vt l - hasType vt v.
Proof.
  revert i. induction l as [|x l IH]; intros [|i] Hnd Hi; simplify_eq/=.
  - apply NoDup_cons in Hnd as [Hx _].
    rewrite filter_cons_False by (intros H; by apply H).
    rewrite filter_others_id by done. rewrite countVotes_cons. lia.
  - apply NoDup_cons in Hnd as [Hx Hnd].
    assert (user x ≠ user v) as Hne.
    { intros Heq. apply Hx. rewrite Heq.
      apply list_elem_of_fmap_2. by eapply list_elem_of_lookup_2. }
    rewrite filter_cons_True by done.
    rewrite !countVotes_cons, (IH i) by done. lia.
Qed.

Lemma NoDup_users_filter (P : Vote → Prop) `{!∀ x, Decision (P x)} l :
  NoDup (user <$> l) → NoDup (user <$> filter P l).
Proof.
  induction l as [|x l IH]; [done|].
  rewrite fmap_cons, NoDup_cons. intros [Hx Hnd].
  rewrite filter_cons. destruct (decide (P x)); [|by apply IH].
  rewrite fmap_cons, NoDup_cons. split; [|by apply IH].
  rewrite list_elem_of_fmap. intros (y & Hy & [_ Hin]%list_elem_of_filter).
  apply Hx. rewrite Hy. by apply list_elem_of_fmap_2.
Qed.

Lemma find_None_noVoteBy u l :
  list_find (λ vote, user vote = u) l = None ↔ noVoteBy u l.
Proof.
  unfold noVoteBy. rewrite list_find_None, Forall_forall, list_elem_of_fmap.
  split.
  - intros H (v & -> & Hv). by apply (H v).
  - intros H v Hv Heq. apply H. by exists v.
Qed.


(** The transition keeps the invariant, whichever branch is taken. *)
Lemma castVote_ok u vt L : ledger_ok L → ledger_ok (castVote u vt L).1.
Proof.
  intros [Hup Hdown Hnd]. unfold castVote.
  destruct (list_find _ _) as [[i ev]|] eqn:Hfind.
  - apply list_find_Some in Hfind as (Hi & Hu & _).
    destruct (decide (voteType ev = vt)) as [Hvt|Hvt]; simpl.
    + split; simpl.
      * rewrite <-Hu, (countVotes_retract _ _ i) by done.
        unfold hasType. destruct vt, (voteType ev); simplify_eq; simpl; lia.
      * rewrite <-Hu, (countVotes_retract _ _ i) by done.
        unfold hasType. destruct vt, (voteType ev); simplify_eq; simpl; lia.
      * by apply NoDup_users_filter.
    + split; simpl.
      * rewrite (countVotes_insert _ _ _ ev) by done.
        unfold hasType. simpl. destruct vt, (voteType ev); simplify_eq; simpl; lia.
      * rewrite (countVotes_insert _ _ _ ev) by done.
        unfold hasType. simpl. destruct vt, (voteType ev); simplify_eq; simpl; lia.
      * rewrite list_fmap_insert. simpl.
        rewrite list_insert_id; [done|]. by rewrite list_lookup_fmap, Hi.
  - apply find_None_noVoteBy in Hfind. split; simpl.
    + rewrite countVotes_app, countVotes_cons, countVotes_nil.
      unfold hasType; simpl. destruct vt; simpl; lia.
    + rewrite countVotes_app, countVotes_cons, countVotes_nil.
      unfold hasType; simpl. destruct vt; simpl; lia.
    + rewrite fmap_app. apply NoDup_app. split_and!; [done| |].
      * intros x Hx Hx'. simpl in Hx'. apply list_elem_of_singleton in Hx'.
        subst. by apply Hfind.
      * simpl. apply NoDup_singleton.
Qed.

(** First vote of a user who has none. *)
Lemma castVote_new u vt L :
  noVoteBy u (l_votes L) →
  castVote u vt L =
    ({| l_up := match vt with up => l_up L + 1 | down => l_up L end;
        l_down := match vt with up => l_down L | down => l_down L + 1 end;
        l_votes := l_votes L ++ [{| user := u; voteType := vt |}] |}, true).
Proof.
  intros Hu%find_None_noVoteBy. unfold castVote. by rewrite Hu.
Qed.


End ledger_lemmas.

(** ** The vote handlers perform the ledger transition *)

Ltac vote_cases :=
  repeat first
    [ progress simpl
    | match goal with
      | |- context [list_find ?P ?l] => destruct (list_find P l) as [[? ?]|]
      | |- context [decide ?P] => destruct (decide P)
      | |- context [notificationsDown ?w] => destruct (notificationsDown w)
      | vt : VoteType |- _ => destruct vt
      | H : _ ∧ _ |- _ => destruct H
      end ];
  try reflexivity; try congruence; try (exfalso; tauto).

Lemma voteThread_castVote req w t vt :
  threads w !! vr_id req = Some t →
  parseVoteType (vr_voteType req) = Some vt →
  voteThread req w = voteThread_result req t vt w.
Proof.
  intros Ht Hvt.
  unfold voteThread, voteThread_result, bind, Thread_findById. rewrite Ht, Hvt.
  unfold castVote, Thread_ledger, Notification_create, Thread_save, respond, pure.
  vote_cases.
Qed.

Lemma voteComment_castVote req w c vt :
  comments w !! vr_id req = Some c →
  parseVoteType (vr_voteType req) = Some vt →
  voteComment req w = voteComment_result req c vt w.
Proof.
  intros Hc Hvt.
  unfold voteComment, voteComment_result, bind, Comment_findById. rewrite Hc, Hvt.
  unfold castVote, Comment_ledger, Notification_create, Comment_save, respond, pure.
  vote_cases.
Qed.

Lemma Thread_ledger_with L t : Thread_ledger (Thread_with_ledger L t) = L.
Proof. by destruct L. Qed.

Lemma Comment_ledger_with L c : Comment_ledger (Comment_with_ledger L c) = L.
Proof. by destruct L. Qed.

(** Effect of [voteThread] on the thread collection: nothing, or the
    voted thread is replaced by its image under [castVote]. *)
Lemma voteThread_threads req w :
  threads (run (voteThread req) w).2 = threads w ∨
  ∃ t vt, threads w !! vr_id req = Some t ∧
    threads (run (voteThread req) w).2 =
      <[vr_id req :=
          Thread_with_ledger (castVote (id (vr_user req)) vt (Thread_ledger t)).1 t]>
        (threads w).
Proof.
  destruct (threads w !! vr_id req) as [t|] eqn:Ht.
  - destruct (parseVoteType (vr_voteType req)) as [vt|] eqn:Hvt.
    + unfold run. rewrite (voteThread_castVote req w t vt) by done.
      unfold voteThread_result.
      destruct (decide _); [destruct (notificationsDown w)|]; simpl; eauto.
    + left. unfold run, voteThread, bind, Thread_findById. by rewrite Ht, Hvt.
  - left. unfold run, voteThread, bind, Thread_findById. by rewrite Ht.
Qed.

Lemma voteComment_comments req w :
  comments (run (voteComment req) w).2 = comments w ∨
  ∃ c vt, comments w !! vr_id req = Some c ∧
    comments (run (voteComment req) w).2 =
      <[vr_id req :=
          Comment_with_ledger (castVote (id (vr_user req)) vt (Comment_ledger c)).1 c]>
        (comments w).
Proof.
  destruct (comments w !! vr_id req) as [c|] eqn:Hc.
  - destruct (parseVoteType (vr_voteType req)) as [vt|] eqn:Hvt.
    + unfold run. rewrite (voteComment_castVote req w c vt) by done.
      unfold voteComment_result.
      destruct (decide _); [destruct (notificationsDown w)|]; simpl; eauto.
    + left. unfold run, voteComment, bind, Comment_findById. by rewrite Hc, Hvt.
  - left. unfold run, voteComment, bind, Comment_findById. by rewrite Hc.
Qed.

Lemma voteThread_keeps_inv req w i t :
  threads w !! i = Some t → Thread_inv t →
  ∃ t', threads (run (voteThread req) w).2 !! i = Some t' ∧ Thread_inv t'.
Proof.
  intros Hi Hinv.
  destruct (voteThread_threads req w) as [->|(t0 & vt & Ht0 & ->)]; [eauto|].
  destruct (decide (vr_id req = i)) as [<-|Hne].
  - rewrite lookup_insert_eq. eexists; split; [done|].
    unfold Thread_inv. rewrite Thread_ledger_with.
    apply castVote_ok. by simplify_eq.
  - rewrite lookup_insert_ne by done. eauto.
Qed.

Lemma voteComment_keeps_inv req w i c :
  comments w !! i = Some c → Comment_inv c →
  ∃ c', comments (run (voteComment req) w).2 !! i = Some c' ∧ Comment_inv c'.
Proof.
  intros Hi Hinv.
  destruct (voteComment_comments req w) as [->|(c0 & vt & Hc0 & ->)]; [eauto|].
  destruct (decide (vr_id req = i)) as [<-|Hne].
  - rewrite lookup_insert_eq. eexists; split; [done|].
    unfold Comment_inv. rewrite Comment_ledger_with.
    apply castVote_ok. by simplify_eq.
  - rewrite lookup_insert_ne by done. eauto.
Qed.

(** C5. For every thread and every comment of the store: if its
    counters equal the numbers of its [up] and [down] vote records and no
    user has two records, then after any call of the vote handler (new
    vote, retraction, flip, or a call that is refused or fails) the
    entity is still stored and the same holds of it. *)
Theorem vote_preserves_ledger_invariant (req : VoteReq) (w : World) :
  (∀ i t, threads w !! i = Some t → Thread_inv t →
     ∃ t', threads (run (voteThread req) w).2 !! i = Some t' ∧ Thread_inv t') ∧
  (∀ i c, comments w !! i = Some c → Comment_inv c →
     ∃ c', comments (run (voteComment req) w).2 !! i = Some c' ∧ Comment_inv c').
Proof.
  split.
  - intros i t. apply voteThread_keeps_inv.
  - intros i c. apply voteComment_keeps_inv.
Qed.

(** ** Two votes in a row by a user who had not voted *)
















(** ** Comment creation *)




Ltac world_fields :=
  cbn [users threads comments messages notifications nextId notificationsDown
       emitted set_threads set_comments set_messages set_notifications
       set_nextId set_emitted].


(** ** Which notifications a new comment adds *)

Section created.
Context (req : CommentReq) (w : World) (thread : Thread.doc).
Context (Herr : cr_errors req = [])
        (Hthread : threads w !! cr_threadId req = Some thread)
        (Hlock : Thread.isLocked thread = false)
        (Hparent : ∀ p, cr_parentId req = Some p → is_Some (comments w !! p))
        (Hfresh : comments w !! nextId w = None)
        (Hdown : notificationsDown w = false).





End created.



(** ** Comment deletion *)

Lemma size_filter_complement {V} (P : Id * V → Prop) `{!∀ x, Decision (P x)}
    (m : gmap Id V) :
  size m = (size (filter P m) + size (filter (λ v, ¬ P v) m))%nat.
Proof.
  rewrite <-map_size_disj_union by apply map_disjoint_filter_complement.
  by rewrite map_filter_union_complement.
Qed.

(** Once the replies are deleted, none is left to count. *)
Lemma count_after_deleteMany (p : Id) (m : gmap Id Comment.doc) :
  size (filter (λ kc : Id * Comment.doc, Comment.parentId kc.2 = Some p)
          (filter (λ kc : Id * Comment.doc, Comment.parentId kc.2 ≠ Some p) m))
  = 0%nat.
Proof.
  apply map_size_empty_iff, map_empty. intros i.
  apply map_lookup_filter_None. right. intros c Hc Hp.
  apply map_lookup_filter_Some in Hc as [_ Hne]. by apply Hne.
Qed.

Lemma deleteComment_deleted req w comment :
  comments w !! ir_id req = Some comment →
  Comment.userId comment = id (ir_user req) →
  run (deleteComment req) w
  = (Responded {| status := 200; success := true;
                  payload := PMessage "Comment deleted successfully" |},
     commentDeleted req comment w).
Proof.
  intros Hc Hown. unfold run, deleteComment.
  rewrite bind_Comment_findById, Hc, decide_False by (intros H; by apply H).
  rewrite bind_Comment_deleteMany_parentId, bind_Comment_countDocuments_parentId.
  world_fields. rewrite count_after_deleteMany.
  by rewrite bind_Thread_incCommentsCount, bind_Comment_deleteOne.
Qed.

(** The comments removed by a deletion are the comment and its replies. *)
Lemma deleteComment_removed i comment (m : gmap Id Comment.doc) :
  m !! i = Some comment →
  size m
  = (size (delete i (filter (λ kc : Id * Comment.doc,
                               Comment.parentId kc.2 ≠ Some i) m))
     + 1 + size (repliesOf i m))%nat.
Proof.
  intros Hc.
  rewrite <-map_filter_delete.
  assert (repliesOf i m
          = filter (λ kc : Id * Comment.doc, ¬ Comment.parentId kc.2 ≠ Some i)
              (delete i m)) as ->.
  { unfold repliesOf. apply map_filter_strong_ext_1. intros k c. simpl.
    rewrite lookup_delete_Some.
    destruct (decide (Comment.parentId c = Some i)); naive_solver. }
  rewrite <-(insert_delete_id m i comment) at 1 by done.
  rewrite map_size_insert_None by apply lookup_delete_eq.
  rewrite (size_filter_complement
             (λ kc : Id * Comment.doc, Comment.parentId kc.2 ≠ Some i) (delete i m)).
  lia.
Qed.

(** C10. A successful [deleteComment] answers 200 and lowers the
    [commentsCount] of the owning thread by exactly 1, whatever the number
    of replies deleted with the comment: the replies are deleted before
    they are counted, so the count read from the store is 0.  The number
    of comments removed is 1 plus the number of replies, so the decrement
    differs from it as soon as the comment has a reply. *)
Theorem deleteComment_decrements_by_one (req : IdReq) (w : World)
    (comment : Comment.doc) (thread : Thread.doc) :
  comments w !! ir_id req = Some comment →
  Comment.userId comment = id (ir_user req) →
  threads w !! Comment.threadId comment = Some thread →
  let r := run (deleteComment req) w in
  let afterDeleteMany := (Comment_deleteMany_parentId (ir_id req) w).2 in
  r.1 = Responded {| status := 200; success := true;
                     payload := PMessage "Comment deleted successfully" |}
  ∧ (Comment_countDocuments_parentId (ir_id req) afterDeleteMany).1 = Val 0
  ∧ (∃ thread', threads r.2 !! Comment.threadId comment = Some thread'
       ∧ Thread.commentsCount thread' = Thread.commentsCount thread - 1)
  ∧ size (comments w)
    = (size (comments r.2) + 1 + size (repliesOf (ir_id req) (comments w)))%nat
  ∧ (size (repliesOf (ir_id req) (comments w)) ≠ 0%nat →
     Thread.commentsCount thread - Z.of_nat (size (comments w) - size (comments r.2))
     ≠ Thread.commentsCount thread - 1).
Proof.
  intros Hc Hown Ht r afterDeleteMany. subst r afterDeleteMany.
  rewrite (deleteComment_deleted req w comment) by done.
  pose proof (deleteComment_removed (ir_id req) comment (comments w) Hc) as Hsize.
  unfold Comment_countDocuments_parentId, Comment_deleteMany_parentId. simpl.
  rewrite count_after_deleteMany.
  split_and!; [done|done| |done|].
  - rewrite lookup_alter_eq, Ht. simpl. eexists. split; [done|]. simpl. lia.
  - intros Hreplies. lia.
Qed.

(** ** Reply and mention notifications of a new comment *)



(** ** The message pipeline *)

Section sendMessage.
Context (req : MessageReq) (w : World).

Lemma sendMessage_invalid :
  mr_errors req ≠ [] →
  run (sendMessage req) w
  = (Responded {| status := 400; success := false;
                  payload := PErrors (mr_errors req) |}, w).
Proof.
  intros Herr. unfold run, sendMessage. by destruct (mr_errors req).
Qed.

Lemma sendMessage_no_receiver :
  mr_errors req = [] →
  users w !! mr_receiverId req = None →
  run (sendMessage req) w
  = (Responded {| status := 404; success := false;
                  payload := PMessage "Receiver not found" |}, w).
Proof.
  intros Herr Hrcv. unfold run, sendMessage, bind, User_findById.
  by rewrite Herr, Hrcv.
Qed.

Lemma sendMessage_chat_disabled receiver :
  mr_errors req = [] →
  users w !! mr_receiverId req = Some receiver →
  User.chat (User.notificationPrefs receiver) = false →
  run (sendMessage req) w
  = (Responded {| status := 403; success := false;
                  payload := PMessage "User has disabled messages" |}, w).
Proof.
  intros Herr Hrcv Hchat. unfold run, sendMessage, bind, User_findById.
  by rewrite Herr, Hrcv, Hchat.
Qed.


End sendMessage.

(** C8. A valid send request whose receiver does not exist is answered
    404, and one whose receiver has the chat preference disabled is
    answered 403; in both cases the world is left as it was, so neither a
    message nor a notification is persisted. *)
Theorem sendMessage_fails_fast (req : MessageReq) (w : World) :
  mr_errors req = [] →
  (users w !! mr_receiverId req = None →
     run (sendMessage req) w
     = (Responded {| status := 404; success := false;
                     payload := PMessage "Receiver not found" |}, w)) ∧
  (∀ receiver,
     users w !! mr_receiverId req = Some receiver →
     User.chat (User.notificationPrefs receiver) = false →
     run (sendMessage req) w
     = (Responded {| status := 403; success := false;
                     payload := PMessage "User has disabled messages" |}, w)).
Proof.
  intros Herr. split.
  - by apply sendMessage_no_receiver.
  - intros receiver. by apply sendMessage_chat_disabled.
Qed.


(** ** Deletion marks *)

Lemma deleteMessage_step i u w m :
  messages w !! i = Some m →
  run (deleteMessage (deleteReq i u)) w
  = if decide (Message.sender m ≠ id u ∧ Message.receiver m ≠ id u)
    then (Responded {| status := 403; success := false;
                       payload := PMessage "Not authorized to delete this message" |},
          w)
    else (Responded {| status := 200; success := true;
                       payload := PMessage "Message deleted successfully" |},
          set_messages (insert i (markDeleted (id u) m)) w).
Proof.
  intros Hm. unfold run, deleteMessage, bind, Message_findById. simpl.
  rewrite Hm. by destruct (decide _).
Qed.

(** A duplicate-free list drawn from two values has length 2 exactly
    when the values differ and both occur. *)
Lemma length_two_both (s r : Id) (l : list Id) :
  NoDup l → (∀ x, x ∈ l → x = s ∨ x = r) →
  length l = 2%nat ↔ s ≠ r ∧ s ∈ l ∧ r ∈ l.
Proof.
  intros Hnd Hsub.
  destruct l as [|a [|b [|c l]]]; simpl.
  - split; [done|]. intros (_ & []%elem_of_nil & _).
  - split; [done|]. intros (Hne & ->%list_elem_of_singleton & ->%list_elem_of_singleton).
    done.
  - split; [intros _|done].
    apply NoDup_cons in Hnd as [Ha _]. rewrite list_elem_of_singleton in Ha.
    destruct (Hsub a) as [->| ->]; [set_solver| |];
      (destruct (Hsub b) as [->| ->]; [set_solver| |]); try done; set_solver.
  - split; [done|]. intros _. exfalso.
    apply NoDup_cons in Hnd as [Ha Hnd]. apply NoDup_cons in Hnd as [Hb _].
    destruct (Hsub a) as [->| ->]; [set_solver| |];
      (destruct (Hsub b) as [->| ->]; [set_solver| |]);
      (destruct (Hsub c) as [->| ->]; [set_solver| |]); set_solver.
Qed.

(** The state of the marks of a message after calls by [callers]. *)
Record marks_ok (s r : Id) (callers : list ReqUser) (m : Message.doc) : Prop := {
  mk_sender : Message.sender m = s;
  mk_receiver : Message.receiver m = r;
  mk_nodup : NoDup (Message.deletedBy m);
  mk_marks : ∀ x, x ∈ Message.deletedBy m ↔ x ∈ id <$> callers ∧ (x = s ∨ x = r);
  mk_inert : Message.isDeleted m = true ↔
             s ≠ r ∧ s ∈ Message.deletedBy m ∧ r ∈ Message.deletedBy m }.

Lemma marks_ok_fresh m :
  Message.deletedBy m = [] → Message.isDeleted m = false →
  marks_ok (Message.sender m) (Message.receiver m) [] m.
Proof.
  intros Hd Hi. split; try done.
  - rewrite Hd. apply NoDup_nil_2.
  - intros x. rewrite Hd. simpl. split; [intros []%elem_of_nil|intros [[]%elem_of_nil _]].
  - rewrite Hd, Hi. split; [done|]. intros (_ & []%elem_of_nil & _).
Qed.

Lemma marks_ok_unauthorised s r callers u m :
  marks_ok s r callers m → s ≠ id u → r ≠ id u →
  marks_ok s r (callers ++ [u]) m.
Proof.
  intros [Hs Hr Hnd Hmk Hin] Hsu Hru. split; try done.
  intros x. rewrite Hmk, fmap_app, elem_of_app. simpl.
  rewrite list_elem_of_singleton. naive_solver.
Qed.

Lemma marks_ok_authorised s r callers u m :
  marks_ok s r callers m → ¬ (s ≠ id u ∧ r ≠ id u) →
  marks_ok s r (callers ++ [u]) (markDeleted (id u) m).
Proof.
  intros [Hs Hr Hnd Hmk Hin] Hauth.
  assert (id u = s ∨ id u = r) as Hu.
  { destruct (decide (s = id u)); [auto|]. destruct (decide (r = id u)); [auto|].
    exfalso. by apply Hauth. }
  set (l' := if decide (id u ∈ Message.deletedBy m) then Message.deletedBy m
             else Message.deletedBy m ++ [id u]).
  assert (NoDup l') as Hnd'.
  { unfold l'. destruct (decide _); [done|].
    apply NoDup_app. split_and!; [done| |apply NoDup_singleton].
    intros x Hx ->%list_elem_of_singleton. done. }
  assert (∀ x, x ∈ l' ↔ x ∈ id <$> (callers ++ [u]) ∧ (x = s ∨ x = r)) as Hmk'.
  { intros x. unfold l'. rewrite fmap_app, elem_of_app. simpl.
    rewrite list_elem_of_singleton.
    destruct (decide _) as [Hin'|Hin'].
    - rewrite Hmk. apply Hmk in Hin' as [Hin' _]. split.
      + intros [? ?]. auto.
      + intros [[?| ->] ?]; auto.
    - rewrite elem_of_app, list_elem_of_singleton, Hmk. split.
      + intros [[? ?]| ->]; auto.
      + intros [[?| ->] ?]; auto. }
  assert (length l' = 2%nat ↔ s ≠ r ∧ s ∈ l' ∧ r ∈ l') as Hlen.
  { apply length_two_both; [done|]. intros x Hx%Hmk'. tauto. }
  assert (∀ x, x ∈ Message.deletedBy m → x ∈ l') as Hsub.
  { intros x Hx. unfold l'. destruct (decide _); [done|].
    apply elem_of_app. by left. }
  assert (Message.deletedBy (markDeleted (id u) m) = l') as Hd'.
  { unfold markDeleted, l'. by repeat (destruct (decide _); simpl). }
  assert (Message.isDeleted (markDeleted (id u) m)
          = if decide (length l' = 2%nat) then true else Message.isDeleted m) as Hi'.
  { unfold markDeleted, l'. by repeat (destruct (decide _); simpl). }
  split.
  - rewrite <-Hs. unfold markDeleted. by repeat (destruct (decide _); simpl).
  - rewrite <-Hr. unfold markDeleted. by repeat (destruct (decide _); simpl).
  - by rewrite Hd'.
  - intros x. by rewrite Hd'.
  - rewrite Hd', Hi'. destruct (decide (length l' = 2%nat)) as [Hl|Hl].
    + split; [intros _; by apply Hlen|done].
    + split.
      * intros (? & ? & ?)%Hin. split_and!; auto.
      * intros H. exfalso. by apply Hl, Hlen.
Qed.

Lemma deleteCalls_snoc i callers u w :
  deleteCalls i (callers ++ [u]) w
  = (run (deleteMessage (deleteReq i u)) (deleteCalls i callers w)).2.
Proof. unfold deleteCalls. by rewrite foldl_app. Qed.

(** The message stays in the collection and its marks follow the calls. *)
Lemma deleteCalls_marks i m callers w :
  messages w !! i = Some m →
  Message.deletedBy m = [] → Message.isDeleted m = false →
  ∃ m', messages (deleteCalls i callers w) !! i = Some m'
        ∧ marks_ok (Message.sender m) (Message.receiver m) callers m'.
Proof.
  intros Hm Hd Hi. induction callers as [|u callers IH] using rev_ind.
  - exists m. split; [done|]. by apply marks_ok_fresh.
  - destruct IH as (m1 & Hm1 & Hok). rewrite deleteCalls_snoc.
    rewrite (deleteMessage_step i u _ m1) by done.
    destruct Hok as [Hs Hr ? ? ?] eqn:E. rewrite Hs, Hr.
    destruct (decide _) as [[Hsu Hru]|Hauth]; simpl.
    + exists m1. split; [done|]. by apply marks_ok_unauthorised.
    + rewrite lookup_insert_eq. eexists. split; [done|].
      by apply marks_ok_authorised.
Qed.

(** C9 (amended). Take a message as created (no deletion mark, not
    inert) whose sender and receiver are different users, and any
    sequence of [deleteMessage] calls on it.  Afterwards the message is
    still stored with the same parties, no user is marked twice, the
    marked users are the parties among the callers, and the message is
    inert exactly when both the sender and the receiver are among the
    callers; in particular calls that all come from one user leave it
    not inert. *)
Theorem deleteMessage_inert_iff_both (i : Id) (m : Message.doc)
    (callers : list ReqUser) (w : World) :
  messages w !! i = Some m →
  Message.deletedBy m = [] →
  Message.isDeleted m = false →
  Message.sender m ≠ Message.receiver m →
  ∃ m', messages (deleteCalls i callers w) !! i = Some m'
    ∧ Message.sender m' = Message.sender m
    ∧ Message.receiver m' = Message.receiver m
    ∧ NoDup (Message.deletedBy m')
    ∧ (∀ x, x ∈ Message.deletedBy m' ↔
            x ∈ id <$> callers ∧ (x = Message.sender m ∨ x = Message.receiver m))
    ∧ (Message.isDeleted m' = true ↔
         Message.sender m ∈ id <$> callers ∧ Message.receiver m ∈ id <$> callers)
    ∧ (∀ u, Forall (λ c, id c = u) callers → Message.isDeleted m' = false).
Proof.
  intros Hm Hd Hi Hne.
  destruct (deleteCalls_marks i m callers w Hm Hd Hi)
    as (m' & Hm' & [Hs Hr Hnd Hmk Hin]).
  assert (Message.isDeleted m' = true ↔
          Message.sender m ∈ id <$> callers ∧ Message.receiver m ∈ id <$> callers)
    as Hiff.
  { rewrite Hin, !Hmk. naive_solver. }
  exists m'. split_and!; try done.
  intros u Hall. destruct (Message.isDeleted m') eqn:Hdel; [|done].
  exfalso. destruct (proj1 Hiff eq_refl) as [Hs' Hr'].
  apply list_elem_of_fmap in Hs' as (cs & Hcs & Hcs').
  apply list_elem_of_fmap in Hr' as (cr & Hcr & Hcr').
  rewrite Forall_forall in Hall.
  apply Hne. rewrite Hcs, Hcr, (Hall cs), (Hall cr); done.
Qed.

(** * The handlers on the small forum *)

Lemma vote_preserves_ledger_invariant_witness :
  (∃ t', threads (run (voteThread (voteUp 10%nat alice)) forum).2 !! 10%nat = Some t'
         ∧ Thread_inv t') ∧
  (∃ c', comments (run (voteComment (voteDown 20%nat alice)) forum).2 !! 20%nat = Some c'
         ∧ Comment_inv c').
Proof.
  split.
  - apply (proj1 (vote_preserves_ledger_invariant (voteUp 10%nat alice) forum)
             10%nat logoThread).
    + reflexivity.
    + split; [reflexivity|reflexivity|apply NoDup_nil_2].
  - apply (proj2 (vote_preserves_ledger_invariant (voteDown 20%nat alice) forum)
             20%nat carolComment).
    + reflexivity.
    + split; [reflexivity|reflexivity|apply NoDup_nil_2].
Defined.



Lemma sendMessage_fails_fast_witness :
  run (sendMessage (sendTo 99%nat alice)) forum
  = (Responded {| status := 404; success := false;
                  payload := PMessage "Receiver not found" |}, forum)
  ∧ run (sendMessage (sendTo 4%nat alice)) forum
    = (Responded {| status := 403; success := false;
                    payload := PMessage "User has disabled messages" |}, forum).
Proof.
  split.
  - apply (proj1 (sendMessage_fails_fast (sendTo 99%nat alice) forum eq_refl)).
    reflexivity.
  - apply (proj2 (sendMessage_fails_fast (sendTo 4%nat alice) forum eq_refl)
             (mkUser "dave" "Dave" false)); reflexivity.
Defined.


Lemma deleteMessage_inert_iff_both_witness :
  ∃ m', messages (deleteCalls 30%nat [alice; alice; bob] forum) !! 30%nat = Some m'
        ∧ Message.isDeleted m' = true.
Proof.
  destruct (deleteMessage_inert_iff_both 30%nat aliceToBob [alice; alice; bob] forum)
    as (m' & Hm' & _ & _ & _ & _ & Hiff & _).
  - reflexivity.
  - reflexivity.
  - reflexivity.
  - discriminate.
  - exists m'. split; [exact Hm'|]. apply Hiff. simpl. split.
    + apply list_elem_of_here.
    + apply list_elem_of_further, list_elem_of_further, list_elem_of_here.
Defined.

Lemma deleteComment_decrements_by_one_witness :
  ∃ thread', threads (run (deleteComment {| ir_id := 20%nat; ir_user := carol |})
                        forum).2 !! 10%nat = Some thread'
             ∧ Thread.commentsCount thread' = 2 - 1.
Proof.
  destruct (deleteComment_decrements_by_one {| ir_id := 20%nat; ir_user := carol |}
              forum carolComment logoThread eq_refl eq_refl eq_refl)
    as (_ & _ & H & _).
  exact H.
Defined.



(** * Further properties of the handlers
    ** Votes: refusals and notifications *)

Lemma parseVoteType_None s :
  s ≠ "up" → s ≠ "down" → parseVoteType s = None.
Proof.
  intros Hu Hd. unfold parseVoteType. by rewrite !decide_False.
Qed.

Lemma parseVoteType_Some_up s : parseVoteType s = Some up ↔ s = "up".
Proof.
  unfold parseVoteType. repeat case_decide; naive_solver.
Qed.

Lemma castVote_old u vt L :
  ¬ noVoteBy u (l_votes L) → (castVote u vt L).2 = false.
Proof.
  intros Hu. unfold castVote. destruct (list_find _ _) as [[i ev]|] eqn:Hfind.
  - by destruct (decide _).
  - by apply find_None_noVoteBy in Hfind.
Qed.

Lemma voteThread_not_found req w :
  threads w !! vr_id req = None →
  run (voteThread req) w
  = (Responded {| status := 404; success := false;
                  payload := PMessage "Thread not found" |}, w).
Proof.
  intros Ht. unfold run, voteThread. by rewrite bind_Thread_findById, Ht.
Qed.

Lemma voteComment_not_found req w :
  comments w !! vr_id req = None →
  run (voteComment req) w
  = (Responded {| status := 404; success := false;
                  payload := PMessage "Comment not found" |}, w).
Proof.
  intros Hc. unfold run, voteComment. by rewrite bind_Comment_findById, Hc.
Qed.

(** A vote on an entity that does not exist is answered 404, and a vote
    with a direction other than [up] and [down] on one that exists is
    answered 400; neither changes anything. *)
Theorem vote_refusals (req : VoteReq) (w : World) :
  (threads w !! vr_id req = None →
     run (voteThread req) w
     = (Responded {| status := 404; success := false;
                     payload := PMessage "Thread not found" |}, w)) ∧
  (is_Some (threads w !! vr_id req) →
     vr_voteType req ≠ "up" → vr_voteType req ≠ "down" →
     run (voteThread req) w
     = (Responded {| status := 400; success := false;
                     payload := PMessage "Invalid vote type" |}, w)) ∧
  (comments w !! vr_id req = None →
     run (voteComment req) w
     = (Responded {| status := 404; success := false;
                     payload := PMessage "Comment not found" |}, w)) ∧
  (is_Some (comments w !! vr_id req) →
     vr_voteType req ≠ "up" → vr_voteType req ≠ "down" →
     run (voteComment req) w
     = (Responded {| status := 400; success := false;
                     payload := PMessage "Invalid vote type" |}, w)).
Proof.
  split_and!.
  - apply voteThread_not_found.
  - intros [t Ht] Hu Hd. unfold run, voteThread.
    by rewrite bind_Thread_findById, Ht, parseVoteType_None.
  - apply voteComment_not_found.
  - intros [c Hc] Hu Hd. unfold run, voteComment.
    by rewrite bind_Comment_findById, Hc, parseVoteType_None.
Qed.

Lemma vote_refusals_witness :
  run (voteThread (voteUp 11%nat alice)) forum
  = (Responded {| status := 404; success := false;
                  payload := PMessage "Thread not found" |}, forum)
  ∧ run (voteComment {| vr_id := 20%nat; vr_voteType := "sideways"; vr_user := alice |})
      forum
    = (Responded {| status := 400; success := false;
                    payload := PMessage "Invalid vote type" |}, forum).
Proof.
  split.
  - apply (proj1 (vote_refusals (voteUp 11%nat alice) forum)). reflexivity.
  - apply (proj2 (proj2 (proj2 (vote_refusals
             {| vr_id := 20%nat; vr_voteType := "sideways"; vr_user := alice |}
             forum)))).
    + eexists. reflexivity.
    + discriminate.
    + discriminate.
Defined.

Lemma voteThread_notifications req w t :
  threads w !! vr_id req = Some t →
  notifications (run (voteThread req) w).2
  = notifications w ++
    (if decide (vr_voteType req = "up"
                ∧ noVoteBy (id (vr_user req)) (Thread.votedBy t)
                ∧ Thread.createdBy t ≠ id (vr_user req)
                ∧ notificationsDown w = false)
     then [thread_upvote_notification (vr_id req) t (vr_user req)]
     else []).
Proof.
  intros Ht. destruct (parseVoteType (vr_voteType req)) as [vt|] eqn:Hvt.
  - unfold run. rewrite (voteThread_castVote req w t vt) by done.
    unfold voteThread_result.
    destruct (decide (noVoteBy (id (vr_user req)) (Thread.votedBy t))) as [Hu|Hu].
    + rewrite (castVote_new _ vt) by done. simpl.
      destruct (decide _) as [(_ & -> & Hown)|Hno].
      * apply parseVoteType_Some_up in Hvt.
        destruct (notificationsDown w) eqn:Hdown; simpl.
        -- rewrite decide_False, app_nil_r; [done|]. intros (_ & _ & _ & ?). done.
        -- by rewrite decide_True.
      * simpl. rewrite decide_False, app_nil_r; [done|].
        intros (Hup%parseVoteType_Some_up & _ & Hown & _). apply Hno.
        split_and!; [done| |done]. congruence.
    + rewrite castVote_old by done.
      rewrite decide_False by (intros [? _]; done). simpl.
      rewrite decide_False, app_nil_r; [done|]. intros (_ & ? & _). done.
  - unfold run, voteThread. rewrite bind_Thread_findById, Ht, Hvt. simpl.
    rewrite decide_False, app_nil_r; [done|].
    intros (Hup & _). rewrite Hup in Hvt. done.
Qed.

Lemma voteComment_notifications req w c :
  comments w !! vr_id req = Some c →
  notifications (run (voteComment req) w).2
  = notifications w ++
    (if decide (vr_voteType req = "up"
                ∧ noVoteBy (id (vr_user req)) (Comment.votedBy c)
                ∧ Comment.userId c ≠ id (vr_user req)
                ∧ notificationsDown w = false)
     then [comment_upvote_notification (vr_id req) c (vr_user req)]
     else []).
Proof.
  intros Hc. destruct (parseVoteType (vr_voteType req)) as [vt|] eqn:Hvt.
  - unfold run. rewrite (voteComment_castVote req w c vt) by done.
    unfold voteComment_result.
    destruct (decide (noVoteBy (id (vr_user req)) (Comment.votedBy c))) as [Hu|Hu].
    + rewrite (castVote_new _ vt) by done. simpl.
      destruct (decide _) as [(_ & -> & Hown)|Hno].
      * apply parseVoteType_Some_up in Hvt.
        destruct (notificationsDown w) eqn:Hdown; simpl.
        -- rewrite decide_False, app_nil_r; [done|]. intros (_ & _ & _ & ?). done.
        -- by rewrite decide_True.
      * simpl. rewrite decide_False, app_nil_r; [done|].
        intros (Hup%parseVoteType_Some_up & _ & Hown & _). apply Hno.
        split_and!; [done| |done]. congruence.
    + rewrite castVote_old by done.
      rewrite decide_False by (intros [? _]; done). simpl.
      rewrite decide_False, app_nil_r; [done|]. intros (_ & ? & _). done.
  - unfold run, voteComment. rewrite bind_Comment_findById, Hc, Hvt. simpl.
    rewrite decide_False, app_nil_r; [done|].
    intros (Hup & _). rewrite Hup in Hvt. done.
Qed.

(** A vote adds a notification in one case only: the direction is [up],
    the voter has no vote record on the entity, the voter is not its owner
    and notifications can be written; it is then one upvote notification
    for the owner.  A [down] vote, a flip, a retraction and a vote on
    one's own thread or comment never notify. *)
Theorem vote_notifies_first_upvote_only (req : VoteReq) (w : World) :
  notifications (run (voteThread req) w).2
  = notifications w ++
    match threads w !! vr_id req with
    | Some t =>
      if decide (vr_voteType req = "up"
                 ∧ noVoteBy (id (vr_user req)) (Thread.votedBy t)
                 ∧ Thread.createdBy t ≠ id (vr_user req)
                 ∧ notificationsDown w = false)
      then [thread_upvote_notification (vr_id req) t (vr_user req)]
      else []
    | None => []
    end
  ∧ notifications (run (voteComment req) w).2
    = notifications w ++
      match comments w !! vr_id req with
      | Some c =>
        if decide (vr_voteType req = "up"
                   ∧ noVoteBy (id (vr_user req)) (Comment.votedBy c)
                   ∧ Comment.userId c ≠ id (vr_user req)
                   ∧ notificationsDown w = false)
        then [comment_upvote_notification (vr_id req) c (vr_user req)]
        else []
      | None => []
      end.
Proof.
  split.
  - destruct (threads w !! vr_id req) as [t|] eqn:Ht.
    + by apply voteThread_notifications.
    + rewrite voteThread_not_found by done. simpl. by rewrite app_nil_r.
  - destruct (comments w !! vr_id req) as [c|] eqn:Hc.
    + by apply voteComment_notifications.
    + rewrite voteComment_not_found by done. simpl. by rewrite app_nil_r.
Qed.

(** ** Messages: the complete pipeline and what deletion keeps *)



Lemma deleteMessage_not_found req w :
  messages w !! ir_id req = None →
  run (deleteMessage req) w
  = (Responded {| status := 404; success := false;
                  payload := PMessage "Message not found" |}, w).
Proof.
  intros Hm. unfold run, deleteMessage, bind, Message_findById. by rewrite Hm.
Qed.

(** [deleteMessage] on a message that does not exist is answered 404,
    and by a user who is neither its sender nor its receiver 403; neither
    changes anything. *)
Theorem deleteMessage_refusals (req : IdReq) (w : World) :
  (messages w !! ir_id req = None →
     run (deleteMessage req) w
     = (Responded {| status := 404; success := false;
                     payload := PMessage "Message not found" |}, w)) ∧
  (∀ m, messages w !! ir_id req = Some m →
     Message.sender m ≠ id (ir_user req) →
     Message.receiver m ≠ id (ir_user req) →
     run (deleteMessage req) w
     = (Responded {| status := 403; success := false;
                     payload := PMessage "Not authorized to delete this message" |},
        w)).
Proof.
  split.
  - apply deleteMessage_not_found.
  - intros m Hm Hs Hr. destruct req as [i u].
    change {| ir_id := i; ir_user := u |} with (deleteReq i u).
    rewrite (deleteMessage_step i u w m Hm). by rewrite decide_True.
Qed.

Lemma deleteMessage_refusals_witness :
  run (deleteMessage (deleteReq 31%nat alice)) forum
  = (Responded {| status := 404; success := false;
                  payload := PMessage "Message not found" |}, forum)
  ∧ run (deleteMessage (deleteReq 30%nat carol)) forum
    = (Responded {| status := 403; success := false;
                    payload := PMessage "Not authorized to delete this message" |},
       forum).
Proof.
  split.
  - apply (proj1 (deleteMessage_refusals (deleteReq 31%nat alice) forum)). reflexivity.
  - apply (proj2 (deleteMessage_refusals (deleteReq 30%nat carol) forum) aliceToBob);
      [reflexivity|discriminate|discriminate].
Defined.

Lemma markDeleted_keeps u m :
  Message.sender (markDeleted u m) = Message.sender m
  ∧ Message.receiver (markDeleted u m) = Message.receiver m
  ∧ Message.content (markDeleted u m) = Message.content m
  ∧ Message.threadId (markDeleted u m) = Message.threadId m
  ∧ Message.messageType (markDeleted u m) = Message.messageType m
  ∧ Message.read (markDeleted u m) = Message.read m
  ∧ (∀ x, x ∈ Message.deletedBy (markDeleted u m) ↔ x ∈ Message.deletedBy m ∨ x = u)
  ∧ (Message.isDeleted m = true → Message.isDeleted (markDeleted u m) = true).
Proof.
  unfold markDeleted.
  destruct (decide (u ∈ Message.deletedBy m)) as [Hin|Hin];
    destruct (decide (length _ = 2%nat)); simpl; split_and!; try done.
  all: intros x; rewrite ?elem_of_app, ?list_elem_of_singleton; naive_solver.
Qed.

(** Whatever [deleteMessage] request is served, a stored message stays
    stored with its parties, content, thread, type and read flag; its
    deletion marks only grow, and only by the caller when the caller is
    its sender or receiver; once inert it stays inert.  No notification is
    written and nothing is pushed. *)
Theorem deleteMessage_only_marks (req : IdReq) (w : World) (i : Id) (m : Message.doc) :
  messages w !! i = Some m →
  let w' := (run (deleteMessage req) w).2 in
  (∃ m', messages w' !! i = Some m'
     ∧ Message.sender m' = Message.sender m
     ∧ Message.receiver m' = Message.receiver m
     ∧ Message.content m' = Message.content m
     ∧ Message.threadId m' = Message.threadId m
     ∧ Message.messageType m' = Message.messageType m
     ∧ Message.read m' = Message.read m
     ∧ (∀ x, x ∈ Message.deletedBy m → x ∈ Message.deletedBy m')
     ∧ (∀ x, x ∈ Message.deletedBy m' →
          x ∈ Message.deletedBy m
          ∨ (i = ir_id req ∧ x = id (ir_user req)
             ∧ (x = Message.sender m ∨ x = Message.receiver m)))
     ∧ (Message.isDeleted m = true → Message.isDeleted m' = true))
  ∧ notifications w' = notifications w
  ∧ emitted w' = emitted w.
Proof.
  intros Hm w'. subst w'. destruct req as [j u].
  destruct (messages w !! j) as [mj|] eqn:Hj.
  - change {| ir_id := j; ir_user := u |} with (deleteReq j u).
    rewrite (deleteMessage_step j u w mj Hj).
    destruct (decide _) as [Hout|Hin]; simpl.
    + split; [|done]. exists m. split_and!; auto.
    + split; [|done]. destruct (decide (j = i)) as [->|Hne].
      * rewrite lookup_insert_eq. simplify_eq.
        destruct (markDeleted_keeps (id u) m) as (?&?&?&?&?&?&Hmk&?).
        eexists. split; [done|]. split_and!; try done.
        -- intros x Hx. apply Hmk. by left.
        -- intros x [Hx| ->]%Hmk; [by left|right].
           split_and!; [done..|].
           destruct (decide (Message.sender m = id u)); [by left|].
           destruct (decide (Message.receiver m = id u)); [by right|].
           exfalso. by apply Hin.
      * rewrite lookup_insert_ne by done. exists m. split_and!; auto.
  - rewrite deleteMessage_not_found by done. simpl.
    split; [|done]. exists m. split_and!; auto.
Qed.

Lemma deleteMessage_only_marks_witness :
  ∃ m', messages (run (deleteMessage (deleteReq 30%nat bob)) forum).2 !! 30%nat = Some m'
        ∧ Message.content m' = "Hello".
Proof.
  destruct (deleteMessage_only_marks (deleteReq 30%nat bob) forum 30%nat aliceToBob)
    as [(m' & Hm' & _ & _ & Hc & _) _]; [reflexivity|].
  exists m'. split; [exact Hm'|exact Hc].
Defined.

(** ** Comments: refusals, partial failure, deletion *)

Section createComment_refused.
Context (req : CommentReq) (w : World).

Lemma createComment_invalid :
  cr_errors req ≠ [] →
  run (createComment req) w
  = (Responded {| status := 400; success := false;
                  payload := PErrors (cr_errors req) |}, w).
Proof using Type.
  intros Herr. unfold run, createComment. by destruct (cr_errors req).
Qed.

Lemma createComment_no_thread :
  cr_errors req = [] →
  threads w !! cr_threadId req = None →
  run (createComment req) w
  = (Responded {| status := 404; success := false;
                  payload := PMessage "Thread not found" |}, w).
Proof using Type.
  intros Herr Ht. unfold run, createComment.
  by rewrite Herr, bind_Thread_findById, Ht.
Qed.

Lemma createComment_locked thread :
  cr_errors req = [] →
  threads w !! cr_threadId req = Some thread →
  Thread.isLocked thread = true →
  run (createComment req) w
  = (Responded {| status := 403; success := false;
                  payload := PMessage "Thread is locked" |}, w).
Proof using Type.
  intros Herr Ht Hlock. unfold run, createComment.
  by rewrite Herr, bind_Thread_findById, Ht, Hlock.
Qed.

Lemma createComment_no_parent thread p :
  cr_errors req = [] →
  threads w !! cr_threadId req = Some thread →
  Thread.isLocked thread = false →
  cr_parentId req = Some p →
  comments w !! p = None →
  run (createComment req) w
  = (Responded {| status := 404; success := false;
                  payload := PMessage "Parent comment not found" |}, w).
Proof using Type.
  intros Herr Ht Hlock Hp Hpc. unfold run, createComment.
  rewrite Herr, bind_Thread_findById, Ht, Hlock, Hp.
  by rewrite bind_bind, bind_Comment_findById, Hpc.
Qed.
End createComment_refused.

(** [createComment] refuses, in this order, a request with validation
    errors (400), a thread that does not exist (404), a locked thread
    (403) and a parent comment that does not exist (404).  A refused
    request changes nothing: no comment is stored, no counter moves and
    nobody is notified. *)
Theorem createComment_refusals (req : CommentReq) (w : World) :
  (cr_errors req ≠ [] →
     run (createComment req) w
     = (Responded {| status := 400; success := false;
                     payload := PErrors (cr_errors req) |}, w)) ∧
  (cr_errors req = [] →
     (threads w !! cr_threadId req = None →
        run (createComment req) w
        = (Responded {| status := 404; success := false;
                        payload := PMessage "Thread not found" |}, w)) ∧
     (∀ thread, threads w !! cr_threadId req = Some thread →
        (Thread.isLocked thread = true →
           run (createComment req) w
           = (Responded {| status := 403; success := false;
                           payload := PMessage "Thread is locked" |}, w)) ∧
        (Thread.isLocked thread = false →
           ∀ p, cr_parentId req = Some p → comments w !! p = None →
           run (createComment req) w
           = (Responded {| status := 404; success := false;
                           payload := PMessage "Parent comment not found" |}, w)))).
Proof.
  split; [apply createComment_invalid|]. intros Herr. split.
  - by apply createComment_no_thread.
  - intros thread Ht. split.
    + by apply createComment_locked.
    + intros Hlock p Hp Hpc. by apply (createComment_no_parent req w thread p).
Qed.

Lemma createComment_refusals_witness :
  run (createComment (aliceComments (Some 99%nat) None)) forum
  = (Responded {| status := 404; success := false;
                  payload := PMessage "Parent comment not found" |}, forum).
Proof.
  apply (proj2 (proj2 (proj2 (createComment_refusals
           (aliceComments (Some 99%nat) None) forum) eq_refl) logoThread eq_refl)
           eq_refl 99%nat eq_refl).
  reflexivity.
Defined.







Lemma deleteComment_not_found req w :
  comments w !! ir_id req = None →
  run (deleteComment req) w
  = (Responded {| status := 404; success := false;
                  payload := PMessage "Comment not found" |}, w).
Proof.
  intros Hc. unfold run, deleteComment. by rewrite bind_Comment_findById, Hc.
Qed.

Lemma deleteComment_not_owner req w comment :
  comments w !! ir_id req = Some comment →
  Comment.userId comment ≠ id (ir_user req) →
  run (deleteComment req) w
  = (Responded {| status := 403; success := false;
                  payload := PMessage "Not authorized to delete this comment" |}, w).
Proof.
  intros Hc Hown. unfold run, deleteComment.
  by rewrite bind_Comment_findById, Hc, decide_True.
Qed.

(** [deleteComment] on a comment that does not exist is answered 404,
    and by a user who is not its author 403 (the owner of the thread
    included); neither changes anything. *)
Theorem deleteComment_refusals (req : IdReq) (w : World) :
  (comments w !! ir_id req = None →
     run (deleteComment req) w
     = (Responded {| status := 404; success := false;
                     payload := PMessage "Comment not found" |}, w)) ∧
  (∀ comment, comments w !! ir_id req = Some comment →
     Comment.userId comment ≠ id (ir_user req) →
     run (deleteComment req) w
     = (Responded {| status := 403; success := false;
                     payload := PMessage "Not authorized to delete this comment" |},
        w)).
Proof.
  split; [apply deleteComment_not_found|].
  intros comment. apply deleteComment_not_owner.
Qed.

Lemma deleteComment_refusals_witness :
  run (deleteComment {| ir_id := 20%nat; ir_user := bob |}) forum
  = (Responded {| status := 403; success := false;
                  payload := PMessage "Not authorized to delete this comment" |},
     forum).
Proof.
  apply (proj2 (deleteComment_refusals {| ir_id := 20%nat; ir_user := bob |} forum)
           carolComment); [reflexivity|discriminate].
Defined.

(** A successful [deleteComment] removes the comment and the comments
    whose parent it is, and nothing else: a comment is stored afterwards
    exactly when it was stored before, is not the deleted comment and does
    not have it as parent.  In particular a reply to one of its replies
    stays stored although its parent is gone.  Users, messages and
    notifications are untouched. *)
Theorem deleteComment_direct_replies_only (req : IdReq) (w : World)
    (comment : Comment.doc) :
  comments w !! ir_id req = Some comment →
  Comment.userId comment = id (ir_user req) →
  let w' := (run (deleteComment req) w).2 in
  (∀ k c, comments w' !! k = Some c ↔
          comments w !! k = Some c ∧ k ≠ ir_id req
          ∧ Comment.parentId c ≠ Some (ir_id req))
  ∧ (∀ k c g cg,
       comments w !! k = Some c → Comment.parentId c = Some (ir_id req) →
       comments w !! g = Some cg → Comment.parentId cg = Some k →
       k ≠ ir_id req → g ≠ ir_id req →
       comments w' !! k = None ∧ comments w' !! g = Some cg)
  ∧ users w' = users w ∧ messages w' = messages w
  ∧ notifications w' = notifications w.
Proof.
  intros Hc Hown w'. subst w'.
  rewrite (deleteComment_deleted req w comment) by done. simpl.
  assert (∀ k c,
            delete (ir_id req)
              (filter (λ kc : Id * Comment.doc,
                         Comment.parentId kc.2 ≠ Some (ir_id req)) (comments w))
              !! k = Some c ↔
            comments w !! k = Some c ∧ k ≠ ir_id req
            ∧ Comment.parentId c ≠ Some (ir_id req)) as Hiff.
  { intros k c. rewrite lookup_delete_Some, map_lookup_filter_Some. simpl.
    naive_solver. }
  split_and!; try done.
  intros k c g cg Hk Hpk Hg Hpg Hkne Hgne. split.
  - apply eq_None_not_Some. intros [c' Hc']. apply Hiff in Hc' as (Hk' & _ & Hp).
    rewrite Hk in Hk'. injection Hk' as <-. by apply Hp.
  - apply Hiff. split_and!; [done..|]. rewrite Hpg. congruence.
Qed.

Lemma deleteComment_direct_replies_only_witness :
  comments (run (deleteComment {| ir_id := 20%nat; ir_user := carol |}) forum).2
    !! 21%nat = None.
Proof.
  destruct (deleteComment_direct_replies_only {| ir_id := 20%nat; ir_user := carol |}
              forum carolComment eq_refl eq_refl) as (Hiff & _).
  apply eq_None_not_Some. intros [c Hc]. apply Hiff in Hc as (Hc & _ & Hp).
  vm_compute in Hc. injection Hc as <-. apply Hp. reflexivity.
Defined.



(** * The other handlers
    ** Read state of messages *)

Lemma markAsRead_done i u w m :
  messages w !! i = Some m →
  Message.receiver m = id u →
  run (markAsRead (deleteReq i u)) w
  = (Responded {| status := 200; success := true;
                  payload := PMessage "Message marked as read" |},
     set_messages (insert i (Message_set_read true m)) w).
Proof.
  intros Hm Hr. unfold run, markAsRead, bind, Message_findOne_receiver. simpl.
  by rewrite Hm, decide_True.
Qed.

Lemma markAsRead_not_found i u w :
  (∀ m, messages w !! i = Some m → Message.receiver m ≠ id u) →
  run (markAsRead (deleteReq i u)) w
  = (Responded {| status := 404; success := false;
                  payload := PMessage "Message not found" |}, w).
Proof.
  intros Hm. unfold run, markAsRead, bind, Message_findOne_receiver. simpl.
  destruct (messages w !! i) as [m|]; [|done].
  by rewrite decide_False by (by apply Hm).
Qed.

(** [markAsRead] answers 404 and changes nothing unless the caller is
    the receiver of the message: a message that does not exist, a message
    of other people, and a message the caller sent are all "not found". *)
Theorem markAsRead_refusals (i : Id) (u : ReqUser) (w : World) :
  (∀ m, messages w !! i = Some m → Message.receiver m ≠ id u) →
  run (markAsRead (deleteReq i u)) w
  = (Responded {| status := 404; success := false;
                  payload := PMessage "Message not found" |}, w).
Proof. apply markAsRead_not_found. Qed.

Lemma markAsRead_refusals_witness :
  run (markAsRead (deleteReq 30%nat alice)) forum
  = (Responded {| status := 404; success := false;
                  payload := PMessage "Message not found" |}, forum).
Proof.
  apply (markAsRead_refusals 30%nat alice forum).
  intros m Hm. vm_compute in Hm. injection Hm as <-. discriminate.
Defined.

(** When the receiver marks a message as read, the answer is 200, the
    message is stored with [read = true] and all its other fields as they
    were, every other message and the rest of the world are untouched, and
    a second call changes nothing more. *)
Theorem markAsRead_marks (i : Id) (u : ReqUser) (w : World) (m : Message.doc) :
  messages w !! i = Some m →
  Message.receiver m = id u →
  let r := run (markAsRead (deleteReq i u)) w in
  r.1 = Responded {| status := 200; success := true;
                     payload := PMessage "Message marked as read" |}
  ∧ (∃ m', messages r.2 !! i = Some m'
       ∧ Message.read m' = true
       ∧ Message.sender m' = Message.sender m
       ∧ Message.receiver m' = Message.receiver m
       ∧ Message.content m' = Message.content m
       ∧ Message.threadId m' = Message.threadId m
       ∧ Message.messageType m' = Message.messageType m
       ∧ Message.isDeleted m' = Message.isDeleted m
       ∧ Message.deletedBy m' = Message.deletedBy m)
  ∧ (∀ j, j ≠ i → messages r.2 !! j = messages w !! j)
  ∧ notifications r.2 = notifications w ∧ emitted r.2 = emitted w
  ∧ users r.2 = users w ∧ threads r.2 = threads w ∧ comments r.2 = comments w
  ∧ run (markAsRead (deleteReq i u)) r.2 = (r.1, r.2).
Proof.
  intros Hm Hr r. subst r. rewrite (markAsRead_done i u w m) by done. simpl.
  split_and!; try done.
  - rewrite lookup_insert_eq. eexists. split; [done|]. by split_and!.
  - intros j Hj. by rewrite lookup_insert_ne.
  - rewrite (markAsRead_done i u _ (Message_set_read true m));
      [|by simpl; rewrite lookup_insert_eq|done].
    f_equal. unfold set_messages. simpl. by rewrite insert_insert_eq.
Qed.

Lemma markAsRead_marks_witness :
  ∃ m', messages (run (markAsRead (deleteReq 30%nat bob)) forum).2 !! 30%nat = Some m'
        ∧ Message.read m' = true.
Proof.
  destruct (markAsRead_marks 30%nat bob forum aliceToBob eq_refl eq_refl)
    as (_ & (m' & H1 & H2 & _) & _).
  exists m'. split; [exact H1|exact H2].
Defined.

(** ** The unread counter *)

Lemma getUnreadCount_reply u s :
  runS (getUnreadCount u) s = (RespondedS (countReply (unreadCount (id u) (core s))), s).
Proof. reflexivity. Qed.

Section size_filter.
Context {V : Type} (P : Id * V → Prop) `{!∀ x, Decision (P x)}.

Lemma size_filter_insert_fresh i v (m : gmap Id V) :
  m !! i = None →
  size (filter P (<[i := v]> m))
  = (size (filter P m) + if decide (P (i, v)) then 1 else 0)%nat.
Proof.
  intros Hi. rewrite map_filter_insert.
  destruct (decide (P (i, v))).
  - rewrite map_size_insert_None; [lia|].
    apply map_lookup_filter_None. by left.
  - rewrite delete_id by done. lia.
Qed.

Lemma size_filter_insert_over i v v' (m : gmap Id V) :
  m !! i = Some v →
  (size (filter P (<[i := v']> m)) + (if decide (P (i, v)) then 1 else 0)
   = size (filter P m) + (if decide (P (i, v')) then 1 else 0))%nat.
Proof.
  intros Hi.
  rewrite <-(insert_delete_id m i v Hi) at 2.
  rewrite <-(insert_delete_eq m i v').
  rewrite !size_filter_insert_fresh by apply lookup_delete_eq. lia.
Qed.
End size_filter.


Lemma unreadCount_insert_over r i m m' w :
  messages w !! i = Some m →
  unreadCount r (set_messages (insert i m') w)
  = unreadCount r w
    - (if decide (Message.receiver m = r ∧ Message.read m = false
                  ∧ Message.isDeleted m = false) then 1 else 0)
    + (if decide (Message.receiver m' = r ∧ Message.read m' = false
                  ∧ Message.isDeleted m' = false) then 1 else 0).
Proof.
  intros Hi. unfold unreadCount. simpl.
  pose proof (size_filter_insert_over
                (λ km : Id * Message.doc,
                   Message.receiver km.2 = r ∧ Message.read km.2 = false
                   ∧ Message.isDeleted km.2 = false) i m m' (messages w) Hi) as H.
  simpl in H. repeat destruct (decide _); lia.
Qed.



Lemma lift_markAsRead i u s m :
  messages (core s) !! i = Some m →
  Message.receiver m = id u →
  (runS (liftW (markAsRead (deleteReq i u))) s).2
  = set_core (λ _, set_messages (insert i (Message_set_read true m)) (core s)) s.
Proof.
  intros Hm Hr. unfold runS, liftW.
  pose proof (markAsRead_done i u (core s) m Hm Hr) as Hrun.
  unfold run in Hrun.
  destruct (markAsRead (deleteReq i u) (core s)) as [[a|r|e] w']; by simplify_eq/=.
Qed.

(** When the receiver marks a message as read, the receiver's unread
    counter drops by one if the message was unread and not inert, and
    stays as it was otherwise; the counters of all other users stay. *)
Theorem markAsRead_lowers_unread_count (i : Id) (u v : ReqUser) (s : Site)
    (m : Message.doc) (n : Z) :
  messages (core s) !! i = Some m →
  Message.receiver m = id u →
  (runS (getUnreadCount v) s).1 = RespondedS (countReply n) →
  (runS (getUnreadCount v) (runS (liftW (markAsRead (deleteReq i u))) s).2).1
  = RespondedS
      (countReply (n - if decide (id v = id u ∧ Message.read m = false
                                  ∧ Message.isDeleted m = false)
                       then 1 else 0)).
Proof.
  intros Hm Hr Hn.
  rewrite getUnreadCount_reply in Hn. simpl in Hn. injection Hn as <-.
  rewrite getUnreadCount_reply. simpl. f_equal. f_equal.
  rewrite (lift_markAsRead i u s m) by done. simpl.
  rewrite (unreadCount_insert_over _ i m) by done. simpl.
  rewrite (decide_False (P := _ ∧ true = false ∧ _)) by (intros (_ & ? & _); done).
  destruct (decide (Message.receiver m = id v ∧ _)) as [H1|H1];
    destruct (decide (id v = id u ∧ _)) as [H2|H2]; try lia; exfalso.
  - apply H2. destruct H1 as (? & ? & ?). split_and!; congruence.
  - apply H1. destruct H2 as (? & ? & ?). split_and!; congruence.
Qed.

Lemma markAsRead_lowers_unread_count_witness :
  (runS (getUnreadCount bob) (runS (liftW (markAsRead (deleteReq 30%nat bob))) site).2).1
  = RespondedS (countReply (1 - 1)).
Proof.
  apply (markAsRead_lowers_unread_count 30%nat bob bob site aliceToBob 1);
    reflexivity.
Defined.

(** A handler of the [World] run on the site acts on the [World] only. *)
Lemma runS_liftW_state (h : M unit) s :
  (runS (liftW h) s).2 = set_core (λ _, (run h (core s)).2) s.
Proof.
  unfold runS, liftW, run. by destruct (h (core s)) as [[a|r|e] w'].
Qed.

(** A fresh unread message that its receiver deletes is hidden from the
    receiver only: it is not inert yet and still counts as unread for the
    receiver.  Once the sender deletes it too it is inert and the
    receiver's unread counter drops by one. *)
Theorem deleted_message_unread_count (i : Id) (us ur : ReqUser) (s : Site)
    (m : Message.doc) (n : Z) :
  messages (core s) !! i = Some m →
  Message.deletedBy m = [] → Message.isDeleted m = false →
  Message.read m = false →
  Message.sender m = id us → Message.receiver m = id ur → id us ≠ id ur →
  (runS (getUnreadCount ur) s).1 = RespondedS (countReply n) →
  let s1 := (runS (liftW (deleteMessage (deleteReq i ur))) s).2 in
  let s2 := (runS (liftW (deleteMessage (deleteReq i us))) s1).2 in
  (runS (getUnreadCount ur) s1).1 = RespondedS (countReply n)
  ∧ (runS (getUnreadCount ur) s2).1 = RespondedS (countReply (n - 1)).
Proof.
  intros Hm Hd Hi Hread Hs Hr Hne Hn s1 s2. subst s1 s2.
  rewrite getUnreadCount_reply in Hn. simpl in Hn. injection Hn as <-.
  rewrite !getUnreadCount_reply. simpl.
  rewrite !runS_liftW_state. simpl.
  rewrite (deleteMessage_step i ur (core s) m Hm).
  rewrite decide_False by (intros [_ ?]; done). simpl.
  assert (markDeleted (id ur) m
          = Message.set_deletedBy [id ur] m) as Hm1.
  { unfold markDeleted. rewrite Hd.
    destruct (decide (id ur ∈ [])) as [[]%elem_of_nil|_]. by simpl. }
  rewrite Hm1.
  rewrite (deleteMessage_step i us _ (Message.set_deletedBy [id ur] m))
    by (simpl; apply lookup_insert_eq).
  rewrite decide_False by (simpl; intros [? _]; done). simpl.
  assert (markDeleted (id us) (Message.set_deletedBy [id ur] m)
          = Message.set_isDeleted true (Message.set_deletedBy [id ur; id us] m))
    as Hm2.
  { unfold markDeleted. simpl.
    destruct (decide (id us ∈ [id ur])) as [?%list_elem_of_singleton|_]; [done|].
    by simpl. }
  rewrite Hm2. split.
  - rewrite (unreadCount_insert_over _ i m) by done. simpl.
    f_equal. f_equal. repeat destruct (decide _); try lia; tauto.
  - rewrite (unreadCount_insert_over _ i (Message.set_deletedBy [id ur] m))
      by (simpl; apply lookup_insert_eq).
    rewrite (unreadCount_insert_over _ i m) by done. simpl.
    rewrite Hi, Hread.
    rewrite (decide_True (P := Message.receiver m = id ur ∧ _)) by done.
    rewrite (decide_False (P := _ ∧ _ ∧ true = false)) by (intros (_ & _ & ?); done).
    f_equal. f_equal. lia.
Qed.

Lemma deleted_message_unread_count_witness :
  (runS (getUnreadCount bob)
     (runS (liftW (deleteMessage (deleteReq 30%nat bob))) site).2).1
  = RespondedS (countReply 1)
  ∧ (runS (getUnreadCount bob)
       (runS (liftW (deleteMessage (deleteReq 30%nat alice)))
          (runS (liftW (deleteMessage (deleteReq 30%nat bob))) site).2).2).1
    = RespondedS (countReply (1 - 1)).
Proof.
  apply (deleted_message_unread_count 30%nat alice bob site aliceToBob 1);
    try reflexivity. discriminate.
Defined.

(** ** Bookmarks *)

Lemma set_threads_insert_id i t w :
  threads w !! i = Some t → set_threads (insert i t) w = w.
Proof.
  intros Ht. unfold set_threads. rewrite insert_id by done. by destruct w.
Qed.

Lemma set_core_id s : set_core (λ _, core s) s = s.
Proof. by destruct s. Qed.

Lemma bookmarkThread_not_found i u s :
  threads (core s) !! i = None →
  runS (bookmarkThread (deleteReq i u)) s
  = (RespondedS (textReply 404 false "Thread not found"), s).
Proof.
  intros Ht. unfold runS, bookmarkThread, bindS, liftW, Thread_findById. simpl.
  rewrite Ht. by rewrite set_core_id.
Qed.

Lemma bookmarkThread_step i u s t :
  threads (core s) !! i = Some t →
  runS (bookmarkThread (deleteReq i u)) s
  = if decide (id u ∈ default [] (bookmarks s !! i))
    then (RespondedS {| code := 200; ok := true;
                        body := BBookmark "Thread unbookmarked" false |},
          set_bookmarks
            (insert i (filter (λ x, x ≠ id u) (default [] (bookmarks s !! i)))) s)
    else (RespondedS {| code := 200; ok := true;
                        body := BBookmark "Thread bookmarked" true |},
          set_bookmarks (insert i (default [] (bookmarks s !! i) ++ [id u])) s).
Proof.
  intros Ht.
  unfold runS, bookmarkThread, bindS, liftW, Thread_findById, Thread_bookmarks,
    Thread_save_bookmarks, respondS.
  simpl. rewrite Ht. simpl.
  destruct (decide (id u ∈ default [] (bookmarks s !! i))) as [Hin|Hin].
  - rewrite bool_decide_eq_true_2 by done.
    unfold set_core. simpl. rewrite set_threads_insert_id by done.
    by destruct s.
  - rewrite bool_decide_eq_false_2 by done.
    unfold set_core. simpl. rewrite set_threads_insert_id by done.
    by destruct s.
Qed.

(** [bookmarkThread] on a thread that exists toggles the caller's
    bookmark: after the call the caller is in the thread's bookmarks
    exactly when they were not before, and the answer's [isBookmarked]
    says so.  The bookmarks of the other users on this thread, the
    bookmarks of the other threads and everything else are untouched; on
    a thread that does not exist the answer is 404 and nothing changes. *)
Theorem bookmarkThread_toggles (i : Id) (u : ReqUser) (s : Site) :
  let r := runS (bookmarkThread (deleteReq i u)) s in
  let before := default [] (bookmarks s !! i) in
  let after := default [] (bookmarks r.2 !! i) in
  (threads (core s) !! i = None →
     r = (RespondedS (textReply 404 false "Thread not found"), s)) ∧
  (is_Some (threads (core s) !! i) →
     (∃ msg, r.1 = RespondedS {| code := 200; ok := true;
                                 body := BBookmark msg (bool_decide (id u ∈ after)) |})
     ∧ (id u ∈ after ↔ id u ∉ before)
     ∧ (∀ x, x ≠ id u → x ∈ after ↔ x ∈ before)
     ∧ (∀ j, j ≠ i → bookmarks r.2 !! j = bookmarks s !! j)
     ∧ core r.2 = core s ∧ categories r.2 = categories s
     ∧ category r.2 = category s ∧ wishlist r.2 = wishlist s).
Proof.
  intros r before after. subst r before after. split.
  - apply bookmarkThread_not_found.
  - intros [t Ht]. rewrite (bookmarkThread_step i u s t Ht).
    destruct (decide (id u ∈ default [] (bookmarks s !! i))) as [Hin|Hin]; simpl;
      rewrite lookup_insert_eq; simpl.
    + split_and!; try done.
      * eexists. rewrite bool_decide_eq_false_2; [done|].
        rewrite list_elem_of_filter. by intros [? _].
      * rewrite list_elem_of_filter. split; [by intros [? _]|done].
      * intros x Hx. rewrite list_elem_of_filter. naive_solver.
      * intros j Hj. by rewrite lookup_insert_ne.
    + split_and!; try done.
      * eexists. rewrite bool_decide_eq_true_2; [done|].
        rewrite elem_of_app, list_elem_of_singleton. by right.
      * rewrite elem_of_app, list_elem_of_singleton. naive_solver.
      * intros x Hx. rewrite elem_of_app, list_elem_of_singleton. naive_solver.
      * intros j Hj. by rewrite lookup_insert_ne.
Qed.

Lemma bookmarkThread_toggles_witness :
  1%nat ∈ default [] (bookmarks (runS (bookmarkThread (deleteReq 10%nat alice)) site).2
                        !! 10%nat).
Proof.
  destruct (bookmarkThread_toggles 10%nat alice site) as [_ H].
  destruct H as (_ & H & _).
  - eexists. reflexivity.
  - apply H. simpl. intros Hin. apply list_elem_of_singleton in Hin. discriminate.
Defined.

Lemma filter_absent (x : Id) (l : list Id) :
  x ∉ l → filter (λ y, y ≠ x) l = l.
Proof.
  induction l as [|y l IH]; [done|].
  rewrite not_elem_of_cons. intros [Hy Hl].
  rewrite filter_cons_True by congruence. by rewrite IH.
Qed.

(** Bookmarking a thread and taking the bookmark back, by a user who
    had not bookmarked it, leaves the thread's bookmark list exactly as it
    was. *)
Theorem bookmarkThread_twice (i : Id) (u : ReqUser) (s : Site) :
  is_Some (threads (core s) !! i) →
  id u ∉ default [] (bookmarks s !! i) →
  let s1 := (runS (bookmarkThread (deleteReq i u)) s).2 in
  let s2 := (runS (bookmarkThread (deleteReq i u)) s1).2 in
  default [] (bookmarks s1 !! i) = default [] (bookmarks s !! i) ++ [id u]
  ∧ default [] (bookmarks s2 !! i) = default [] (bookmarks s !! i)
  ∧ core s2 = core s.
Proof.
  intros [t Ht] Hout s1 s2. subst s1 s2.
  rewrite (bookmarkThread_step i u s t Ht), decide_False by done. simpl.
  rewrite (bookmarkThread_step i u _ t) by done. simpl.
  rewrite !lookup_insert_eq. simpl.
  rewrite decide_True
    by (rewrite elem_of_app, list_elem_of_singleton; by right).
  simpl. rewrite lookup_insert_eq. simpl.
  split_and!; [done| |done].
  rewrite filter_app, filter_absent by done.
  rewrite filter_cons_False by (intros H; by apply H).
  by rewrite filter_nil, app_nil_r.
Qed.

Lemma bookmarkThread_twice_witness :
  default [] (bookmarks
                (runS (bookmarkThread (deleteReq 10%nat alice))
                   (runS (bookmarkThread (deleteReq 10%nat alice)) site).2).2
                !! 10%nat)
  = [3%nat].
Proof.
  apply (bookmarkThread_twice 10%nat alice site).
  - eexists. reflexivity.
  - simpl. intros Hin. apply list_elem_of_singleton in Hin. discriminate.
Defined.

Lemma deleteThread_not_found i u s :
  threads (core s) !! i = None →
  runS (deleteThread (deleteReq i u)) s
  = (RespondedS (textReply 404 false "Thread not found"), s).
Proof.
  intros Ht. unfold runS, deleteThread, bindS, liftW, Thread_findById. simpl.
  rewrite Ht. by rewrite set_core_id.
Qed.

Lemma deleteThread_not_owner i u s t :
  threads (core s) !! i = Some t →
  Thread.createdBy t ≠ id u →
  runS (deleteThread (deleteReq i u)) s
  = (RespondedS (textReply 403 false "Not authorized to delete this thread"), s).
Proof.
  intros Ht Hown. unfold runS, deleteThread, bindS, liftW, Thread_findById. simpl.
  rewrite Ht. simpl. rewrite decide_True by done. by rewrite set_core_id.
Qed.

Lemma deleteThread_done i u s t :
  threads (core s) !! i = Some t →
  Thread.createdBy t = id u →
  runS (deleteThread (deleteReq i u)) s
  = (RespondedS (textReply 200 true "Thread deleted successfully"),
     afterDeleteThread i s).
Proof.
  intros Ht Hown.
  unfold runS, deleteThread, bindS, liftW, Thread_findById,
    Comment_deleteMany_threadId, Thread_category, Category_incThreadsCount,
    Thread_deleteOne, respondS, afterDeleteThread.
  simpl. rewrite Ht. simpl. rewrite decide_False by (intros H; by apply H).
  rewrite set_core_id. simpl. by destruct (category s !! i).
Qed.

(** [deleteThread] on a thread that does not exist is answered 404, and
    by a user who did not create it 403; neither changes anything. *)
Theorem deleteThread_refusals (i : Id) (u : ReqUser) (s : Site) :
  (threads (core s) !! i = None →
     runS (deleteThread (deleteReq i u)) s
     = (RespondedS (textReply 404 false "Thread not found"), s)) ∧
  (∀ t, threads (core s) !! i = Some t → Thread.createdBy t ≠ id u →
     runS (deleteThread (deleteReq i u)) s
     = (RespondedS (textReply 403 false "Not authorized to delete this thread"), s)).
Proof.
  split; [apply deleteThread_not_found|]. intros t. apply deleteThread_not_owner.
Qed.

Lemma deleteThread_refusals_witness :
  runS (deleteThread (deleteReq 10%nat alice)) site
  = (RespondedS (textReply 403 false "Not authorized to delete this thread"), site).
Proof.
  apply (proj2 (deleteThread_refusals 10%nat alice site) logoThread);
    [reflexivity|discriminate].
Defined.

(** When its creator deletes a thread, the thread is gone and so is
    every comment of the thread, nested or not; the other threads and the
    comments of the other threads stay.  The [threadsCount] of the
    thread's category drops by one.  Messages, notifications, users,
    bookmarks and wishlists are untouched, so a notification or a message
    that refers to the thread keeps referring to it. *)
Theorem deleteThread_removes (i : Id) (u : ReqUser) (s : Site) (t : Thread.doc) :
  threads (core s) !! i = Some t →
  Thread.createdBy t = id u →
  let r := runS (deleteThread (deleteReq i u)) s in
  r.1 = RespondedS (textReply 200 true "Thread deleted successfully")
  ∧ threads (core r.2) !! i = None
  ∧ (∀ j, j ≠ i → threads (core r.2) !! j = threads (core s) !! j)
  ∧ (∀ k c, comments (core r.2) !! k = Some c ↔
            comments (core s) !! k = Some c ∧ Comment.threadId c ≠ i)
  ∧ (∀ c d, category s !! i = Some c → categories s !! c = Some d →
       categories r.2 !! c
       = Some (Category.set_threadsCount (Category.threadsCount d - 1) d))
  ∧ (∀ c, category s !! i ≠ Some c → categories r.2 !! c = categories s !! c)
  ∧ messages (core r.2) = messages (core s)
  ∧ notifications (core r.2) = notifications (core s)
  ∧ users (core r.2) = users (core s)
  ∧ bookmarks r.2 = bookmarks s ∧ wishlist r.2 = wishlist s.
Proof.
  intros Ht Hown r. subst r. rewrite (deleteThread_done i u s t) by done.
  unfold afterDeleteThread. simpl.
  destruct (category s !! i) as [c0|] eqn:Hcat; simpl.
  - split_and!; try done.
    + apply lookup_delete_eq.
    + intros j Hj. by rewrite lookup_delete_ne.
    + intros k c. by rewrite map_lookup_filter_Some.
    + intros c d [= <-] Hd. by rewrite lookup_alter_eq, Hd.
    + intros c Hc. rewrite lookup_alter_ne; [done|]. congruence.
  - split_and!; try done.
    + apply lookup_delete_eq.
    + intros j Hj. by rewrite lookup_delete_ne.
    + intros k c. by rewrite map_lookup_filter_Some.
Qed.

Lemma deleteThread_removes_witness :
  comments (core (runS (deleteThread (deleteReq 10%nat bob)) site).2) !! 21%nat = None.
Proof.
  destruct (deleteThread_removes 10%nat bob site logoThread eq_refl eq_refl)
    as (_ & _ & _ & H & _).
  apply eq_None_not_Some. intros [c Hc]. apply H in Hc as [Hc Hne].
  vm_compute in Hc. injection Hc as <-. apply Hne. reflexivity.
Defined.

Lemma threadsIn_delete c i s :
  threadsIn c (afterDeleteThread i s) = delete i (threadsIn c s).
Proof.
  unfold threadsIn, afterDeleteThread. simpl.
  assert (category
            (match category s !! i with
             | Some c0 =>
               set_categories
                 (alter (λ d, Category.set_threadsCount
                                (Category.threadsCount d + -1) d) c0)
             | None => λ s0, s0
             end
               (set_core
                  (set_comments
                     (filter (λ kc : Id * Comment.doc, Comment.threadId kc.2 ≠ i)))
                  s)) = category s) as ->.
  { by destruct (category s !! i). }
  assert (threads
            (core
               (match category s !! i with
                | Some c0 =>
                  set_categories
                    (alter (λ d, Category.set_threadsCount
                                   (Category.threadsCount d + -1) d) c0)
                | None => λ s0, s0
                end
                  (set_core
                     (set_comments
                        (filter (λ kc : Id * Comment.doc, Comment.threadId kc.2 ≠ i)))
                     s))) = threads (core s)) as ->.
  { by destruct (category s !! i). }
  apply map_filter_delete.
Qed.

(** Deleting a thread keeps the cached thread counters of the
    categories right: if every category's [threadsCount] was the number of
    threads in it, it still is afterwards. *)
Theorem deleteThread_keeps_counts (i : Id) (u : ReqUser) (s : Site) :
  counts_ok s → counts_ok (runS (deleteThread (deleteReq i u)) s).2.
Proof.
  intros Hok. destruct (threads (core s) !! i) as [t|] eqn:Ht.
  - destruct (decide (Thread.createdBy t = id u)) as [Hown|Hown].
    + rewrite (deleteThread_done i u s t) by done. simpl.
      intros c d Hd. rewrite threadsIn_delete, map_size_delete.
      assert (threadsIn c s !! i
              = if decide (category s !! i = Some c) then Some t else None) as ->.
      { unfold threadsIn. rewrite map_lookup_filter, Ht. simpl.
        destruct (decide _); [by rewrite option_guard_True|
                              by rewrite option_guard_False]. }
      unfold afterDeleteThread in Hd. simpl in Hd.
      destruct (category s !! i) as [c0|] eqn:Hcat; simpl in Hd.
      * destruct (decide (c0 = c)) as [->|Hne].
        -- rewrite lookup_alter_eq in Hd.
           destruct (categories s !! c) as [d0|] eqn:Hd0; simplify_eq/=.
           rewrite decide_True by done. rewrite (Hok c d0 Hd0).
           assert (size (threadsIn c s) ≠ 0%nat).
           { apply map_size_ne_0_lookup. exists i. unfold threadsIn.
             rewrite map_lookup_filter, Ht. simpl.
             by rewrite option_guard_True. }
           lia.
        -- rewrite lookup_alter_ne in Hd by done.
           rewrite decide_False by congruence. simpl. by apply Hok.
      * rewrite decide_False by done. simpl. by apply Hok.
    + by rewrite (deleteThread_not_owner i u s t).
  - by rewrite deleteThread_not_found.
Qed.

Lemma counts_ok_site : counts_ok site.
Proof.
  intros c d Hd. unfold site in Hd. simpl in Hd.
  apply lookup_insert_Some in Hd as [[<- <-]|[_ Hd]]; [by vm_compute|].
  apply lookup_singleton_Some in Hd as [<- <-]. by vm_compute.
Qed.

Lemma deleteThread_keeps_counts_witness :
  counts_ok (runS (deleteThread (deleteReq 10%nat bob)) site).2.
Proof.
  apply (deleteThread_keeps_counts 10%nat bob site). exact counts_ok_site.
Defined.

Lemma deleteCategory_not_found i u s :
  categories s !! i = None →
  runS (deleteCategory (deleteReq i u)) s
  = (RespondedS (textReply 404 false "Category not found"), s).
Proof.
  intros Hc. unfold runS, deleteCategory, bindS, Category_findById. simpl.
  by rewrite Hc.
Qed.

Lemma deleteCategory_step i u s d :
  categories s !! i = Some d →
  runS (deleteCategory (deleteReq i u)) s
  = if decide (threadsIn i s = ∅)
    then (RespondedS (textReply 200 true "Category deleted successfully"),
          set_categories (delete i) s)
    else (RespondedS
            (textReply 400 false "Cannot delete category with existing threads"), s).
Proof.
  intros Hc.
  unfold runS, deleteCategory, bindS, Category_findById,
    Thread_countDocuments_category, Category_deleteOne, respondS.
  simpl. rewrite Hc. simpl.
  destruct (decide (threadsIn i s = ∅)) as [He|Hne].
  - rewrite He, map_size_empty. done.
  - rewrite decide_True; [done|].
    assert (size (threadsIn i s) ≠ 0%nat) by (by rewrite map_size_empty_iff).
    lia.
Qed.

Lemma threadsIn_empty i s :
  threadsIn i s = ∅ ↔
  ∀ k t, threads (core s) !! k = Some t → category s !! k ≠ Some i.
Proof.
  unfold threadsIn. rewrite map_empty. split.
  - intros H k t Hk Hcat. specialize (H k).
    apply map_lookup_filter_None in H as [H|H]; [congruence|].
    by apply (H t).
  - intros H k. apply map_lookup_filter_None. right. intros t Hk. simpl.
    by apply (H k t).
Qed.

(** [deleteCategory] looks at the threads themselves, not at the cached
    [threadsCount]: a category that some thread belongs to is refused with
    400 and nothing changes, whatever its counter says; a category with no
    thread is removed and nothing else changes; a category that does not
    exist is answered 404. *)
Theorem deleteCategory_guarded (i : Id) (u : ReqUser) (s : Site) :
  (categories s !! i = None →
     runS (deleteCategory (deleteReq i u)) s
     = (RespondedS (textReply 404 false "Category not found"), s)) ∧
  (is_Some (categories s !! i) →
     (∀ k t, threads (core s) !! k = Some t → category s !! k = Some i →
        runS (deleteCategory (deleteReq i u)) s
        = (RespondedS
             (textReply 400 false "Cannot delete category with existing threads"),
           s)) ∧
     ((∀ k t, threads (core s) !! k = Some t → category s !! k ≠ Some i) →
        runS (deleteCategory (deleteReq i u)) s
        = (RespondedS (textReply 200 true "Category deleted successfully"),
           set_categories (delete i) s))).
Proof.
  split; [apply deleteCategory_not_found|]. intros [d Hd]. split.
  - intros k t Hk Hcat. rewrite (deleteCategory_step i u s d Hd).
    rewrite decide_False; [done|]. intros He.
    by apply (proj1 (threadsIn_empty i s) He k t).
  - intros Hnone. rewrite (deleteCategory_step i u s d Hd).
    by rewrite decide_True by (by apply threadsIn_empty).
Qed.

Lemma deleteCategory_guarded_witness :
  runS (deleteCategory (deleteReq 50%nat alice)) site
  = (RespondedS (textReply 400 false "Cannot delete category with existing threads"),
     site).
Proof.
  destruct (deleteCategory_guarded 50%nat alice site) as [_ H].
  destruct H as [H _].
  - eexists. reflexivity.
  - apply (H 10%nat logoThread); reflexivity.
Defined.

(** A category whose only thread is deleted by the thread's creator can
    be deleted right after, although it could not before. *)
Theorem deleteThread_then_deleteCategory (i c : Id) (u a : ReqUser) (s : Site)
    (t : Thread.doc) :
  threads (core s) !! i = Some t →
  Thread.createdBy t = id u →
  category s !! i = Some c →
  is_Some (categories s !! c) →
  (∀ k t', threads (core s) !! k = Some t' → category s !! k = Some c → k = i) →
  let s1 := (runS (deleteThread (deleteReq i u)) s).2 in
  (runS (deleteCategory (deleteReq c a)) s).1
  = RespondedS (textReply 400 false "Cannot delete category with existing threads")
  ∧ (runS (deleteCategory (deleteReq c a)) s1).1
    = RespondedS (textReply 200 true "Category deleted successfully")
  ∧ categories (runS (deleteCategory (deleteReq c a)) s1).2 !! c = None.
Proof.
  intros Ht Hown Hcat [d Hd] Honly s1. subst s1. split.
  - rewrite (deleteCategory_step c a s d Hd).
    rewrite decide_False; [done|]. intros He.
    by apply (proj1 (threadsIn_empty c s) He i t).
  - rewrite (deleteThread_done i u s t) by done. cbn [snd].
    assert (categories (afterDeleteThread i s) !! c
            = Some (Category.set_threadsCount (Category.threadsCount d + -1) d))
      as Hd1.
    { unfold afterDeleteThread. rewrite Hcat. simpl.
      by rewrite lookup_alter_eq, Hd. }
    rewrite (deleteCategory_step c a _ _ Hd1).
    rewrite decide_True.
    + split; [done|]. simpl. apply lookup_delete_eq.
    + rewrite threadsIn_delete. apply map_empty. intros k.
      apply lookup_delete_None.
      destruct (decide (i = k)) as [->|Hne]; [by left|right].
      apply map_lookup_filter_None.
      destruct (threads (core s) !! k) as [t'|] eqn:Hk; [right|by left].
      intros ? [= <-] Hck. simpl in Hck. apply Hne. symmetry. by eapply Honly.
Qed.

Lemma deleteThread_then_deleteCategory_witness :
  (runS (deleteCategory (deleteReq 50%nat alice))
     (runS (deleteThread (deleteReq 10%nat bob)) site).2).1
  = RespondedS (textReply 200 true "Category deleted successfully").
Proof.
  destruct (deleteThread_then_deleteCategory 10%nat 50%nat bob alice site logoThread)
    as (_ & H & _); try reflexivity.
  - eexists. reflexivity.
  - intros k t' Hk _. unfold site in Hk. simpl in Hk.
    by apply lookup_singleton_Some in Hk as [<- _].
Defined.

(** ** Following users *)

Lemma followUser_not_found i u s :
  users (core s) !! i = None →
  runS (followUser (deleteReq i u)) s
  = (RespondedS (textReply 404 false "User not found"), s).
Proof.
  intros Hu. unfold runS, followUser, bindS, liftW, User_findById. simpl.
  rewrite Hu. by rewrite !set_core_id.
Qed.

Lemma followUser_self u s :
  is_Some (users (core s) !! id u) →
  runS (followUser (deleteReq (id u) u)) s
  = (RespondedS (textReply 400 false "You cannot follow yourself"), s).
Proof.
  intros [d Hu]. unfold runS, followUser, bindS, liftW, User_findById. simpl.
  rewrite Hu. simpl. rewrite decide_True by done. by rewrite !set_core_id.
Qed.

Lemma followUser_step i u s target me :
  users (core s) !! i = Some target →
  users (core s) !! id u = Some me →
  i ≠ id u →
  runS (followUser (deleteReq i u)) s
  = if decide (i ∈ default [] (wishlist s !! id u))
    then (RespondedS {| code := 200; ok := true;
                        body := BFollow "User unfollowed successfully" false |},
          set_wishlist
            (insert (id u) (filter (λ y, y ≠ i) (default [] (wishlist s !! id u)))) s)
    else (RespondedS {| code := 200; ok := true;
                        body := BFollow "User followed successfully" true |},
          set_wishlist (insert (id u) (default [] (wishlist s !! id u) ++ [i])) s).
Proof.
  intros Ht Hme Hne.
  unfold runS, followUser, bindS, liftW, User_findById, User_wishlist,
    User_pull_wishlist, User_addToSet_wishlist, respondS.
  simpl. rewrite Ht, Hme. simpl. rewrite decide_False by done.
  rewrite !set_core_id.
  destruct (decide (i ∈ default [] (wishlist s !! id u))) as [Hin|Hin].
  - rewrite bool_decide_eq_true_2 by done. by rewrite Hme.
  - rewrite bool_decide_eq_false_2 by done. rewrite Hme.
    by rewrite decide_False by done.
Qed.

(** [followUser] refuses a target that does not exist (404) and the
    caller following themself (400), changing nothing. *)
Theorem followUser_refusals (i : Id) (u : ReqUser) (s : Site) :
  (users (core s) !! i = None →
     runS (followUser (deleteReq i u)) s
     = (RespondedS (textReply 404 false "User not found"), s)) ∧
  (is_Some (users (core s) !! i) → i = id u →
     runS (followUser (deleteReq i u)) s
     = (RespondedS (textReply 400 false "You cannot follow yourself"), s)).
Proof.
  split; [apply followUser_not_found|].
  intros Hu ->. by apply followUser_self.
Qed.

Lemma followUser_refusals_witness :
  runS (followUser (deleteReq 1%nat alice)) site
  = (RespondedS (textReply 400 false "You cannot follow yourself"), site).
Proof.
  apply (proj2 (followUser_refusals 1%nat alice site)); [|reflexivity].
  eexists. reflexivity.
Defined.

(** [followUser] on another, existing user toggles the target in the
    caller's wishlist: afterwards the target is in it exactly when it was
    not before, and the answer's [isFollowing] says so.  The rest of the
    caller's wishlist keeps its members, a wishlist without duplicates
    stays without duplicates, and the wishlists of the other users and the
    rest of the site are untouched. *)
Theorem followUser_toggles (i : Id) (u : ReqUser) (s : Site) :
  is_Some (users (core s) !! i) →
  is_Some (users (core s) !! id u) →
  i ≠ id u →
  let r := runS (followUser (deleteReq i u)) s in
  let before := default [] (wishlist s !! id u) in
  let after := default [] (wishlist r.2 !! id u) in
  (∃ msg, r.1 = RespondedS {| code := 200; ok := true;
                              body := BFollow msg (bool_decide (i ∈ after)) |})
  ∧ (i ∈ after ↔ i ∉ before)
  ∧ (∀ x, x ≠ i → x ∈ after ↔ x ∈ before)
  ∧ (NoDup before → NoDup after)
  ∧ (∀ j, j ≠ id u → wishlist r.2 !! j = wishlist s !! j)
  ∧ core r.2 = core s ∧ bookmarks r.2 = bookmarks s
  ∧ categories r.2 = categories s ∧ category r.2 = category s.
Proof.
  intros [target Ht] [me Hme] Hne r before after. subst r before after.
  rewrite (followUser_step i u s target me) by done.
  destruct (decide (i ∈ default [] (wishlist s !! id u))) as [Hin|Hin]; simpl;
    rewrite lookup_insert_eq; simpl.
  - split_and!; try done.
    + eexists. rewrite bool_decide_eq_false_2; [done|].
      rewrite list_elem_of_filter. by intros [? _].
    + rewrite list_elem_of_filter. split; [by intros [? _]|done].
    + intros x Hx. rewrite list_elem_of_filter. naive_solver.
    + apply NoDup_filter.
    + intros j Hj. by rewrite lookup_insert_ne.
  - split_and!; try done.
    + eexists. rewrite bool_decide_eq_true_2; [done|].
      rewrite elem_of_app, list_elem_of_singleton. by right.
    + rewrite elem_of_app, list_elem_of_singleton. naive_solver.
    + intros x Hx. rewrite elem_of_app, list_elem_of_singleton. naive_solver.
    + intros Hnd. apply NoDup_app. split_and!; [done| |apply NoDup_singleton].
      intros x Hx ->%list_elem_of_singleton. done.
    + intros j Hj. by rewrite lookup_insert_ne.
Qed.

Lemma followUser_toggles_witness :
  2%nat ∉ default [] (wishlist (runS (followUser (deleteReq 2%nat alice)) site).2
                        !! 1%nat).
Proof.
  destruct (followUser_toggles 2%nat alice site) as (_ & H & _).
  - eexists. reflexivity.
  - eexists. reflexivity.
  - discriminate.
  - intros Hin. apply H in Hin. apply Hin. simpl. apply list_elem_of_here.
Defined.

(** ** Followers *)

Lemma getUserFollowers_reply i s d :
  users (core s) !! i = Some d →
  runS (getUserFollowers i) s
  = (RespondedS {| code := 200; ok := true;
                   body := BUsers (Z.of_nat (size (followersOf i s)))
                             (map_to_list (followersOf i s)) |}, s).
Proof.
  intros Hu. unfold runS, getUserFollowers, bindS, liftW, User_findById,
    User_find_wishlist, respondS.
  simpl. rewrite Hu. simpl. rewrite set_core_id.
  by rewrite length_map_to_list.
Qed.

(** Changing the wishlist of one user changes the followers of [i] by
    that user at most. *)
Lemma followersOf_update i u l s me :
  users (core s) !! u = Some me →
  (size (followersOf i (set_wishlist (insert u l) s))
   + (if decide (i ∈ default [] (wishlist s !! u)) then 1 else 0)
   = size (followersOf i s) + (if decide (i ∈ l) then 1 else 0))%nat.
Proof.
  intros Hme. unfold followersOf. simpl.
  rewrite <-(insert_delete_id (users (core s)) u me Hme).
  rewrite !size_filter_insert_fresh by apply lookup_delete_eq. simpl.
  rewrite lookup_insert_eq. simpl.
  assert (filter (λ ku : Id * User.doc,
                    i ∈ default [] (<[u:=l]> (wishlist s) !! ku.1))
            (delete u (users (core s)))
          = filter (λ ku : Id * User.doc, i ∈ default [] (wishlist s !! ku.1))
              (delete u (users (core s)))) as ->.
  { apply map_filter_ext. intros k d [Hk _]%lookup_delete_Some. simpl.
    by rewrite lookup_insert_ne. }
  lia.
Qed.

(** Following a user adds one to the number of followers that
    [getUserFollowers] reports for that user, and unfollowing takes one
    away. *)
Theorem followUser_changes_followers (i : Id) (u : ReqUser) (s : Site) (n : Z)
    (data : list (Id * User.doc)) :
  is_Some (users (core s) !! i) →
  is_Some (users (core s) !! id u) →
  i ≠ id u →
  (runS (getUserFollowers i) s).1
  = RespondedS {| code := 200; ok := true; body := BUsers n data |} →
  ∃ data',
    (runS (getUserFollowers i) (runS (followUser (deleteReq i u)) s).2).1
    = RespondedS {| code := 200; ok := true;
                    body := BUsers (if decide (i ∈ default [] (wishlist s !! id u))
                                    then n - 1 else n + 1) data' |}.
Proof.
  intros [target Ht] [me Hme] Hne Hn.
  rewrite (getUserFollowers_reply i s target Ht) in Hn. simpl in Hn.
  injection Hn as <- <-.
  rewrite (followUser_step i u s target me) by done.
  pose proof (followersOf_update i (id u)
                (filter (λ y, y ≠ i) (default [] (wishlist s !! id u))) s me Hme)
    as Hpull.
  pose proof (followersOf_update i (id u)
                (default [] (wishlist s !! id u) ++ [i]) s me Hme) as Hadd.
  destruct (decide (i ∈ default [] (wishlist s !! id u))) as [Hin|Hin]; cbn [snd].
  - rewrite (getUserFollowers_reply i _ target) by done. simpl.
    eexists. f_equal. f_equal. f_equal.
    rewrite decide_False in Hpull
      by (rewrite list_elem_of_filter; by intros [? _]).
    lia.
  - rewrite (getUserFollowers_reply i _ target) by done. simpl.
    eexists. f_equal. f_equal. f_equal.
    rewrite decide_True in Hadd
      by (rewrite elem_of_app, list_elem_of_singleton; by right).
    lia.
Qed.

Lemma followUser_changes_followers_witness :
  ∃ data',
    (runS (getUserFollowers 3%nat) (runS (followUser (deleteReq 3%nat alice)) site).2).1
    = RespondedS {| code := 200; ok := true; body := BUsers (0 + 1) data' |}.
Proof.
  destruct (followUser_changes_followers 3%nat alice site 0 []) as [data' H].
  - eexists. reflexivity.
  - eexists. reflexivity.
  - discriminate.
  - reflexivity.
  - exists data'. exact H.
Defined.

(** * [extractMentions] *)















(** A text with a repeated name, an address, a lone [@] and a doubled one. *)
Example extractMentions_example :
  extractMentions "hi @bob, @al_9 and @bob! mail a@b.c @ @@carol"
  = ["bob"; "al_9"; "b"; "carol"].
Proof. reflexivity. Qed.

(** * Who is notified of their own action *)



